(** * Dashboard real-time layer: the WebSocket provider and the metrics poller

    Shallow embedding of
    - [src/frontend/hooks/useWebSocket.tsx] (module [LiveChannel]): the
      [WebSocketProvider] component with its [connect] callback, the four
      socket handlers, the effect cleanup and [sendMessage];
    - [src/brainsait-website/public/enhanced-app.js] (module [BrainSaitApp]):
      [updateMetrics] and the 5-second interval of [startRealTimeUpdates],
      [formatRelativeTime] and [animateCounter];
    - the dashboard page, [src/unnamed/part_002] (module [Dashboard]): its
      four fetchers and the effect that refetches on [wsData].

    JavaScript values are a tree type; numbers stay abstract (class
    [JSNumber]) because IEEE doubles are not modelled.  Code that can throw
    runs in a small state-and-exception monad, so a [try]/[catch] keeps the
    writes made before the throw, as in JavaScript. *)

From Stdlib Require Import Ascii String ZArith.
From stdpp Require Import gmap strings list fin_maps pretty.

#[local] Set Warnings "-register-all".
#[local] Open Scope string_scope.

(** ** JavaScript values *)

Module JS.

(** What the embedding needs of a JavaScript number: its [ToString] and its
    [ToBoolean] (false for [0], [-0] and [NaN]). *)
Class JSNumber (number : Type) := {
  number_to_string : number → string;
  number_truthy : number → bool
}.

(** The exceptions the modelled code can meet. *)
Inductive exn :=
| SyntaxError      (* JSON.parse on malformed text *)
| TypeError        (* property read on null/undefined, failed ToPrimitive *)
| DOMException.    (* the WebSocket constructor, a rejected fetch *)

Section Values.
Context {number : Type} `{!JSNumber number}.

Inductive value :=
| VUndefined
| VNull
| VBool (b : bool)
| VNumber (n : number)
| VString (s : string)
| VArray (l : list value)
| VObject (o : gmap string value).

(** [v.k] for a property name [k] that is neither an array index nor
    [length] nor a name found on a prototype ([type], [agent_id], [error],
    [alert], [title], [metrics] are such names): an own property of an
    object, [undefined] on every other value that can be read, and a
    [TypeError] on [null] and [undefined]. *)
Definition get_prop (v : value) (k : string) : exn + value :=
  match v with
  | VUndefined | VNull => inl TypeError
  | VObject o => inr (default VUndefined (o !! k))
  | _ => inr VUndefined
  end.

(** [v === 'lit'] against a string literal. *)
Definition strict_eq_str (v : value) (lit : string) : bool :=
  match v with
  | VString s => bool_decide (s = lit)
  | _ => false
  end.

(** [ToBoolean]. *)
Definition truthy (v : value) : bool :=
  match v with
  | VUndefined | VNull => false
  | VBool b => b
  | VNumber n => number_truthy n
  | VString s => negb (bool_decide (s = ""))
  | VArray _ | VObject _ => true
  end.

Fixpoint join_with (sep : string) (parts : list string) : string :=
  match parts with
  | [] => ""
  | [p] => p
  | p :: ps => p ++ sep ++ join_with sep ps
  end.

(** [ToString], as a template literal applies it.  A plain object prints
    as [[object Object]] through [Object.prototype.toString]; an own
    property named [toString] (never callable in parsed JSON) shadows it,
    and [ToPrimitive] then ends in a [TypeError].  An array prints its
    elements joined by commas, [null] and [undefined] as empty. *)
Fixpoint to_string (v : value) : exn + string :=
  match v with
  | VUndefined => inr "undefined"
  | VNull => inr "null"
  | VBool true => inr "true"
  | VBool false => inr "false"
  | VNumber n => inr (number_to_string n)
  | VString s => inr s
  | VObject o =>
      match o !! "toString" with
      | Some _ => inl TypeError
      | None => inr "[object Object]"
      end
  | VArray l =>
      let fix elems (l : list value) : exn + list string :=
        match l with
        | [] => inr []
        | x :: r =>
            match (match x with
                   | VUndefined | VNull => inr ""
                   | _ => to_string x
                   end) with
            | inl e => inl e
            | inr s =>
                match elems r with
                | inl e => inl e
                | inr ss => inr (s :: ss)
                end
            end
        end in
      match elems l with
      | inl e => inl e
      | inr ss => inr (join_with "," ss)
      end
  end.

(** Decimal text of an array index, the property name it is stored under. *)
Definition index_key (i : nat) : string := pretty i.

(** A byte of the form [10xxxxxx], which continues a UTF-8 sequence. *)
Definition is_continuation (b : ascii) : bool :=
  let n := N_of_ascii b in (128 <=? n)%N && (n <? 192)%N.

(** The three-byte form of a code unit from [0x800] on; a surrogate, which
    is half of a character beyond the basic plane, is written this way
    too. *)
Definition unit_bytes (u : N) : string :=
  String (ascii_of_N (224 + u / 4096))
    (String (ascii_of_N (128 + (u / 64) mod 64))
       (String (ascii_of_N (128 + u mod 64)) EmptyString)).

(** A string is held as the UTF-8 bytes of its text; JavaScript indexes it
    by UTF-16 code unit.  [code_units] cuts the bytes into the code units,
    each as a string of its own: one unit for a character of one, two or
    three bytes, the two surrogates for a character of four bytes.  A byte
    that starts no well-formed sequence counts as a unit. *)
Fixpoint code_units (s : string) : list string :=
  match s with
  | EmptyString => []
  | String b0 r =>
      let n0 := N_of_ascii b0 in
      if (n0 <? 192)%N then String b0 EmptyString :: code_units r
      else
        match r with
        | String b1 r1 =>
            if negb (is_continuation b1)
            then String b0 EmptyString :: code_units r
            else if (n0 <? 224)%N
            then String b0 (String b1 EmptyString) :: code_units r1
            else
              match r1 with
              | String b2 r2 =>
                  if negb (is_continuation b2)
                  then String b0 EmptyString :: code_units r
                  else if (n0 <? 240)%N
                  then String b0 (String b1 (String b2 EmptyString))
                       :: code_units r2
                  else
                    match r2 with
                    | String b3 r3 =>
                        if negb (is_continuation b3) || negb (n0 <? 248)%N
                        then String b0 EmptyString :: code_units r
                        else
                          let point :=
                            ((n0 mod 8) * 262144
                             + (N_of_ascii b1 mod 64) * 4096
                             + (N_of_ascii b2 mod 64) * 64
                             + N_of_ascii b3 mod 64)%N in
                          let v := (point - 65536)%N in
                          unit_bytes (55296 + v / 1024)
                          :: unit_bytes (56320 + v mod 1024)
                          :: code_units r3
                    | EmptyString => String b0 EmptyString :: code_units r
                    end
              | EmptyString => String b0 EmptyString :: code_units r
              end
        | EmptyString => String b0 EmptyString :: code_units r
        end
  end.

(** The own enumerable properties an object spread [{...v}] copies:
    the entries of an object, the indexed elements of an array, the indexed
    one-unit strings of a string, nothing for the other primitives. *)
Definition own_props (v : value) : gmap string value :=
  match v with
  | VObject o => o
  | VArray l => list_to_map (imap (λ i x, (index_key i, x)) l)
  | VString s =>
      list_to_map (imap (λ i u, (index_key i, VString u)) (code_units s))
  | _ => ∅
  end.

(** [{...prev, ...message}]: later spreads overwrite earlier ones. *)
Definition spread (prev : gmap string value) (message : value)
  : gmap string value :=
  own_props message ∪ prev.

End Values.

Arguments value : clear implicits.

(** ** State and exceptions

    A computation reads and writes a state [S] and either returns or throws.
    The state written before a throw is kept: JavaScript does not roll back. *)
Section Monad.
Context {S : Type}.

Definition M (A : Type) : Type := S → (exn + A) * S.

Definition ret {A} (a : A) : M A := λ s, (inr a, s).

Definition bind {A B} (m : M A) (k : A → M B) : M B :=
  λ s, match m s with
       | (inl e, s') => (inl e, s')
       | (inr a, s') => k a s'
       end.

Definition throw {A} (e : exn) : M A := λ s, (inl e, s).

(** A pure step that may throw. *)
Definition lift {A} (r : exn + A) : M A := λ s, (r, s).

Definition gets {A} (f : S → A) : M A := λ s, (inr (f s), s).

Definition modify (f : S → S) : M unit := λ s, (inr tt, f s).

(** [try { body } catch (error) { handler error }] *)
Definition try_catch {A} (body : M A) (handler : exn → M A) : M A :=
  λ s, match body s with
       | (inl e, s') => handler e s'
       | (inr a, s') => (inr a, s')
       end.

(** The state a computation leaves, whether it returned or threw. *)
Definition exec {A} (m : M A) (s : S) : S := (m s).2.

(** Whether it returned. *)
Definition returns {A} (m : M A) (s : S) : bool :=
  match (m s).1 with inr _ => true | inl _ => false end.
End Monad.

Arguments M : clear implicits.

#[global] Instance M_ret {S} : MRet (M S) := @ret S.
#[global] Instance M_bind {S} : MBind (M S) := λ A B k m, bind m k.

End JS.

(** ** The Live Channel Client: [WebSocketProvider] of useWebSocket.tsx *)

Module LiveChannel.
Import JS.

(** [WebSocket.readyState]. *)
Inductive ready_state := CONNECTING | OPEN | CLOSING | CLOSED.

(** One [WebSocket] object of the page: its state and what was sent on it.
    A socket is named by its position in the list of sockets constructed. *)
Record transport := Transport {
  readyState : ready_state;
  sent : list string
}.

(** [toast.success(..)], [toast.error(..)], [toast(.., { icon })]. *)
Inductive toast_kind :=
| toast_success
| toast_error
| toast_icon (icon : string).

Section Provider.
Context {number : Type} `{!JSNumber number}.

(** [JSON.parse]: [None] when it throws its [SyntaxError]. *)
Variable JSON_parse : string → option (value number).

(** [JSON.stringify]: [None] when the result is [undefined]. *)
Variable JSON_stringify : value number → option string.

(** Calls the component makes on React, the toaster and the console, in
    program order. *)
Inductive call :=
| SetIsConnected (b : bool)
| SetSocket (s : option nat)
| SetData (message : value number)
| Toast (k : toast_kind) (msg : value number)
| ConsoleError (label : string).

(** The three [useState] cells, the sockets constructed so far, the
    pending [setTimeout(connect, delay)] callbacks by delay in ms, and the
    calls made. *)
Record client := Client {
  isConnected : bool;
  socket : option nat;
  data : gmap string (value number);
  transports : list transport;
  timers : list nat;
  calls : list call
}.

(** [useState(null)], [useState(false)], [useState({})]. *)
Definition init : client := Client false None ∅ [] [] [].

Definition log (k : call) (c : client) : client :=
  Client (isConnected c) (socket c) (data c) (transports c) (timers c)
         (calls c ++ [k]).

Definition setIsConnected (b : bool) : M client unit :=
  modify (λ c, log (SetIsConnected b)
    (Client b (socket c) (data c) (transports c) (timers c) (calls c))).

Definition setSocket (s : option nat) : M client unit :=
  modify (λ c, log (SetSocket s)
    (Client (isConnected c) s (data c) (transports c) (timers c) (calls c))).

(** [setData((prev) => ({ ...prev, ...message }))] *)
Definition setData (message : value number) : M client unit :=
  modify (λ c, log (SetData message)
    (Client (isConnected c) (socket c) (spread (data c) message)
            (transports c) (timers c) (calls c))).

Definition toast (k : toast_kind) (msg : value number) : M client unit :=
  modify (log (Toast k msg)).

Definition console_error (label : string) : M client unit :=
  modify (log (ConsoleError label)).

(** [setTimeout(connect, delay)] *)
Definition setTimeout_connect (delay : nat) : M client unit :=
  modify (λ c,
    Client (isConnected c) (socket c) (data c) (transports c)
           (timers c ++ [delay]) (calls c)).

Definition set_transports (ts : list transport) (c : client) : client :=
  Client (isConnected c) (socket c) (data c) ts (timers c) (calls c).

(** [new WebSocket('ws://localhost:8000/ws/dashboard')]: the constructor
    either throws ([ctor_ok = false]) or yields a fresh socket in state
    [CONNECTING]. *)
Definition new_WebSocket (ctor_ok : bool) : M client nat :=
  if ctor_ok then
    λ c, (inr (length (transports c)),
          set_transports (transports c ++ [Transport CONNECTING []]) c)
  else throw DOMException.

(** [message.type === lit] *)
Definition type_is (message : value number) (lit : string) : M client bool :=
  t ← lift (get_prop message "type"); mret (strict_eq_str t lit).

(** [`${v.k}`] *)
Definition interpolate (v : value number) (k : string) : M client string :=
  x ← lift (get_prop v k); lift (to_string x).

(** [ws.onopen] *)
Definition onopen (ws : nat) : M client unit :=
  setIsConnected true;;
  setSocket (Some ws);;
  toast toast_success (VString "Connected to real-time updates").

(** The block under [// Handle specific message types]. *)
Definition handle_message_type (message : value number) : M client unit :=
  c1 ← type_is message "agent_execution_complete";
  if c1 : bool then
    agent_id ← interpolate message "agent_id";
    toast toast_success (VString ("Agent " ++ agent_id ++ " completed task"))
  else
    c2 ← type_is message "agent_execution_error";
    if c2 : bool then
      agent_id ← interpolate message "agent_id";
      error ← interpolate message "error";
      toast toast_error
            (VString ("Agent " ++ agent_id ++ " failed: " ++ error))
    else
      c3 ← type_is message "new_alert";
      if c3 : bool then
        alert ← lift (get_prop message "alert");
        ty ← lift (get_prop alert "type");
        if strict_eq_str ty "critical" then
          title ← lift (get_prop alert "title");
          toast toast_error title
        else
          ty' ← lift (get_prop alert "type");
          if strict_eq_str ty' "warning" then
            title ← lift (get_prop alert "title");
            toast (toast_icon "⚠️") title
          else
            title ← lift (get_prop alert "title");
            toast toast_success title
      else mret tt.

(** [ws.onmessage], with [event.data] as argument. *)
Definition onmessage (event_data : string) : M client unit :=
  try_catch
    (message ← lift (from_option inr (inl SyntaxError)
                                 (JSON_parse event_data));
     setData message;;
     handle_message_type message)
    (λ error, console_error "Failed to parse WebSocket message:").

(** [ws.onclose] *)
Definition onclose : M client unit :=
  setIsConnected false;;
  setSocket None;;
  toast toast_error (VString "Disconnected from real-time updates");;
  (* Attempt to reconnect after 3 seconds *)
  setTimeout_connect 3000.

(** [ws.onerror] *)
Definition onerror : M client unit :=
  console_error "WebSocket error:";;
  toast toast_error (VString "Connection error").

(** [connect]: the four handler assignments cannot throw and are the
    definitions above. *)
Definition connect (ctor_ok : bool) : M client unit :=
  try_catch
    (ws ← new_WebSocket ctor_ok; mret tt)
    (λ error,
       console_error "Failed to connect WebSocket:";;
       setTimeout_connect 5000).

(** [socket.close()]: a socket that is connecting or open starts closing;
    its close event is delivered later by the browser. *)
Definition ws_close (ws : nat) : M client unit :=
  modify (λ c,
    set_transports
      (alter (λ t, match readyState t with
                   | CONNECTING | OPEN => Transport CLOSING (sent t)
                   | CLOSING | CLOSED => t
                   end) ws (transports c)) c).

(** [socket.send(payload)] *)
Definition ws_send (ws : nat) (payload : string) : M client unit :=
  modify (λ c,
    set_transports
      (alter (λ t, Transport (readyState t) (sent t ++ [payload]))
             ws (transports c)) c).

(** The function returned by the effect:
    [() => { if (socket) { socket.close(); } }], where [socket] is the
    value the closure captured. *)
Definition cleanup (captured : option nat) : M client unit :=
  match captured with
  | Some ws => ws_close ws
  | None => mret tt
  end.

(** [useEffect(() => { connect(); return cleanup }, [connect])]: runs
    [connect] and hands back the cleanup, which closes over the [socket]
    of the render the effect belongs to. *)
Definition useEffect (ctor_ok : bool) (c : client)
  : client * M client unit :=
  (exec (connect ctor_ok) c, cleanup (socket c)).

(** [sendMessage] *)
Definition sendMessage (message : value number) : M client unit :=
  s ← gets socket;
  match s with
  | Some ws =>
      t ← gets (λ c, transports c !! ws);
      match readyState <$> t with
      | Some OPEN =>
          ws_send ws (default "undefined" (JSON_stringify message))
      | _ => mret tt
      end
  | None => mret tt
  end.

(** [subscribe] *)
Definition subscribe (topic : string) : M client unit :=
  sendMessage
    (VObject (<["type" := VString "subscribe"]>
              (<["topic" := VString topic]> ∅))).

(** *** The page around the component

    What the browser does to the component: it completes a handshake,
    delivers a frame, notes that the server has started the closing
    handshake of an open socket (the socket turns [CLOSING] and no handler
    runs), reports that a connection is gone (after a failure the error
    event precedes the close event), or runs a timer that is due.
    [ctor_ok] tells whether the constructor called by that [connect]
    succeeds. *)
Inductive event :=
| Open (ws : nat)
| Message (ws : nat) (event_data : string)
| Closing (ws : nat)
| Closed (ws : nat) (failed : bool)
| TimerDue (i : nat) (ctor_ok : bool).

Definition ready (c : client) (ws : nat) : option ready_state :=
  readyState <$> transports c !! ws.

Definition set_ready (ws : nat) (r : ready_state) (c : client) : client :=
  set_transports
    (alter (λ t, Transport r (sent t)) ws (transports c)) c.

(** One browser task; [None] when the browser cannot produce the event in
    this state. *)
Definition step (e : event) (c : client) : option client :=
  match e with
  | Open ws =>
      match ready c ws with
      | Some CONNECTING => Some (exec (onopen ws) (set_ready ws OPEN c))
      | _ => None
      end
  | Message ws event_data =>
      match ready c ws with
      | Some OPEN => Some (exec (onmessage event_data) c)
      | _ => None
      end
  | Closing ws =>
      match ready c ws with
      | Some OPEN => Some (set_ready ws CLOSING c)
      | _ => None
      end
  | Closed ws failed =>
      match ready c ws with
      | Some CLOSED | None => None
      | Some _ =>
          let c := set_ready ws CLOSED c in
          let c := if failed then exec onerror c else c in
          Some (exec onclose c)
      end
  | TimerDue i ctor_ok =>
      match timers c !! i with
      | Some _ =>
          Some (exec (connect ctor_ok)
                  (Client (isConnected c) (socket c) (data c)
                          (transports c) (delete i (timers c)) (calls c)))
      | None => None
      end
  end.

Fixpoint run (es : list event) (c : client) : option client :=
  match es with
  | [] => Some c
  | e :: es => c' ← step e c; run es c'
  end.

(** A whole life of the provider: mount, the events [before] the unmount,
    the cleanup, the events [after] it. *)
Definition session (ctor_ok : bool) (before after : list event)
  : option client :=
  let '(c0, on_unmount) := useEffect ctor_ok init in
  c1 ← run before c0;
  run after (exec on_unmount c1).

(** The frames for which the handler reached [setData], oldest first. *)
Definition handled (c : client) : list (value number) :=
  omap (λ k, match k with SetData m => Some m | _ => None end) (calls c).

(** The notifications raised, oldest first. *)
Definition toasts (c : client) : list (toast_kind * value number) :=
  omap (λ k, match k with Toast t m => Some (t, m) | _ => None end)
       (calls c).

(** [n] rounds of: the newest socket [ws] is lost, the timer that its
    close handler set comes due, [connect] opens the next socket. *)
Fixpoint drops (n ws : nat) : list event :=
  match n with
  | 0 => []
  | S n => Closed ws true :: TimerDue 0 true :: drops n (S ws)
  end.

(** [c] with further calls recorded and nothing else changed. *)
Definition appends (ks : list call) (c : client) : client :=
  Client (isConnected c) (socket c) (data c) (transports c) (timers c)
         (calls c ++ ks).

(** A toast or a console line: a call that touches no state. *)
Definition is_note (k : call) : Prop :=
  match k with
  | Toast _ _ | ConsoleError _ => True
  | SetIsConnected _ | SetSocket _ | SetData _ => False
  end.

(** A computation that only leaves notes, the same in every state. *)
Definition quiet {A} (m : M client A) : Prop :=
  ∃ r ks, Forall is_note ks ∧ ∀ c, m c = (r, appends ks c).

(** The calls one frame causes. *)
Definition frame_calls (event_data : string) : list call :=
  calls (exec (onmessage event_data) init).

(** The client counts as connecting or connected. *)
Definition connecting_or_connected (c : client) : Prop :=
  isConnected c = true ∨ ∃ ws, ready c ws = Some CONNECTING.

(** The parsed frame of the alert scenario:
    [{ type: 'new_alert', alert: { type: 'critical', title: 'X' } }]. *)
Definition critical_alert : value number :=
  VObject (<["type" := VString "new_alert"]>
           (<["alert" := VObject (<["type" := VString "critical"]>
                                  (<["title" := VString "X"]> ∅))]> ∅)).

(** *** The provider over its whole life

    Besides the browser's events, components call [sendMessage] at any
    time. *)
Inductive action :=
| Browser (e : event)
| Send (message : value number).

Definition perform (a : action) (c : client) : option client :=
  match a with
  | Browser e => step e c
  | Send message => Some (exec (sendMessage message) c)
  end.

Fixpoint play (acts : list action) (c : client) : option client :=
  match acts with
  | [] => Some c
  | a :: acts => c' ← perform a c; play acts c'
  end.

(** The browser still holds this socket: it is not [CLOSED]. *)
Definition is_live (t : transport) : bool :=
  match readyState t with
  | CLOSED => false
  | CONNECTING | OPEN | CLOSING => true
  end.

(** How many sockets are not closed. *)
Definition live (c : client) : nat :=
  length (filter (λ t, is_live t = true) (transports c)).

(** The four shapes a client can have: every socket but possibly the
    newest is closed, and either one retry timer is pending, or the newest
    socket is connecting, or it is open and is the one in the [socket]
    cell, or it is that one and closing (the close event is still to
    come). *)
Inductive phase (c : client) : Prop :=
| Waiting (delay : nat) :
    Forall (λ t, readyState t = CLOSED) (transports c) →
    timers c = [delay] → socket c = None → isConnected c = false →
    phase c
| Connecting (ts : list transport) (t : transport) :
    transports c = (ts ++ [t])%list →
    Forall (λ t, readyState t = CLOSED) ts →
    readyState t = CONNECTING →
    timers c = [] → socket c = None → isConnected c = false →
    phase c
| Connected (ts : list transport) (t : transport) :
    transports c = (ts ++ [t])%list →
    Forall (λ t, readyState t = CLOSED) ts →
    readyState t = OPEN →
    timers c = [] → socket c = Some (length ts) → isConnected c = true →
    phase c
| Leaving (ts : list transport) (t : transport) :
    transports c = (ts ++ [t])%list →
    Forall (λ t, readyState t = CLOSED) ts →
    readyState t = CLOSING →
    timers c = [] → socket c = Some (length ts) → isConnected c = true →
    phase c.

End Provider.

End LiveChannel.

(** ** The metrics poller: [BrainSaitApp] of enhanced-app.js *)

Module BrainSaitApp.
Import JS.

(** How one [fetch] of [/api/metrics] ends: the promise rejects, or a
    response arrives with its [ok] flag and the outcome of
    [response.json()] ([None] when that promise rejects). *)
Inductive fetch_result {number : Type} :=
| Rejected
| Response (ok : bool) (json : option (value number)).
Arguments fetch_result : clear implicits.

(** The callbacks given to [setInterval]. *)
Inductive callback := UpdateMetrics | UpdateTimeDisplays.

Section App.
Context {number : Type} `{!JSNumber number}.

(** The fields [updateMetrics] uses, the [updateMetrics] calls whose fetch
    has not settled yet, the intervals registered, and the console. *)
Record app := App {
  isConnected : bool;
  metrics : value number;
  in_flight : nat;
  intervals : list (nat * callback);
  console : list string
}.

(** The constructor: [isConnected = false], [metrics = {}]. *)
Definition init : app := App false (VObject ∅) 0 [] [].

Definition set_isConnected (b : bool) : M app unit :=
  modify (λ a, App b (metrics a) (in_flight a) (intervals a) (console a)).

Definition set_metrics (m : value number) : M app unit :=
  modify (λ a,
    App (isConnected a) m (in_flight a) (intervals a) (console a)).

Definition console_error (label : string) : M app unit :=
  modify (λ a,
    App (isConnected a) (metrics a) (in_flight a) (intervals a)
        (console a ++ [label])).

(** [updateMetricsDisplay] writes to the page only.  Its counters tolerate
    a missing element; the two direct [textContent] writes throw a
    [TypeError] when theirs is missing ([dom_complete = false]). *)
Definition updateMetricsDisplay (dom_complete : bool) : M app unit :=
  if dom_complete then mret tt else throw TypeError.

(** [updateConnectionStatus] writes to the page only.  Without the status
    element it does nothing; with it, the writes to its icon and its label
    throw a [TypeError] when one of the two is missing
    ([status_complete = false]). *)
Definition updateConnectionStatus (status_complete : bool) : M app unit :=
  if status_complete then mret tt else throw TypeError.

(** [updateMetrics] up to its first [await]: the request is issued. *)
Definition updateMetrics_call : M app unit :=
  modify (λ a,
    App (isConnected a) (metrics a) (S (in_flight a)) (intervals a)
        (console a)).

(** [updateMetrics] from the point where the awaited fetch has settled
    with [r].  Nothing is written between the two [await]s, so both are
    resumed in one step. *)
Definition updateMetrics_resume (dom_complete status_complete : bool)
    (r : fetch_result number) : M app unit :=
  try_catch
    (response ← lift (match r with
                      | Rejected => inl TypeError
                      | Response ok json => inr (ok, json)
                      end);
     if response.1 : bool then
       data ← lift (from_option inr (inl SyntaxError) response.2);
       m ← lift (get_prop data "metrics");
       (* this.metrics = data.metrics || {} *)
       set_metrics (if truthy m then m else VObject ∅);;
       updateMetricsDisplay dom_complete;;
       set_isConnected true
     else mret tt)
    (λ error,
       set_isConnected false;;
       console_error "Metrics update failed:");;
  updateConnectionStatus status_complete.

Definition settle (dom_complete status_complete : bool)
    (r : fetch_result number) (a : app) : app :=
  exec (updateMetrics_resume dom_complete status_complete r)
       (App (isConnected a) (metrics a) (pred (in_flight a)) (intervals a)
            (console a)).

(** [startRealTimeUpdates]: metrics every 5 seconds, time displays every
    second. *)
Definition startRealTimeUpdates : M app unit :=
  modify (λ a,
    App (isConnected a) (metrics a) (in_flight a)
        (intervals a ++ [(5000, UpdateMetrics); (1000, UpdateTimeDisplays)])
        (console a)).

(** The [i]-th interval fires and its callback runs;
    [updateTimeDisplays] writes to the page only. *)
Definition tick (i : nat) (a : app) : app :=
  match intervals a !! i with
  | Some (_, UpdateMetrics) => exec updateMetrics_call a
  | Some (_, UpdateTimeDisplays) | None => a
  end.

(** A fetch failure: no response, a response that is not [ok], or a body
    that is not JSON. *)
Definition fetch_failed (r : fetch_result number) : bool :=
  match r with
  | Rejected => true
  | Response false _ => true
  | Response true None => true
  | Response true (Some _) => false
  end.

(** What happens to the poller: the [i]-th interval fires, or one of the
    fetches in flight settles. *)
Inductive poll_event :=
| Tick (i : nat)
| Settle (dom_complete status_complete : bool) (r : fetch_result number).

Definition poll_step (e : poll_event) (a : app) : option app :=
  match e with
  | Tick i => Some (tick i a)
  | Settle dom_complete status_complete r =>
      match in_flight a with
      | 0 => None
      | S _ => Some (settle dom_complete status_complete r a)
      end
  end.

Fixpoint poll_run (es : list poll_event) (a : app) : option app :=
  match es with
  | [] => Some a
  | e :: es => a' ← poll_step e a; poll_run es a'
  end.

(** A tick of an interval whose callback is [updateMetrics]. *)
Definition is_metrics_tick (a : app) (e : poll_event) : bool :=
  match e with
  | Tick i =>
      match intervals a !! i with
      | Some (_, UpdateMetrics) => true
      | Some (_, UpdateTimeDisplays) | None => false
      end
  | Settle _ _ _ => false
  end.

Definition is_settle (e : poll_event) : bool :=
  match e with
  | Settle _ _ _ => true
  | Tick _ => false
  end.

(** How many events of a history satisfy [f]. *)
Definition count_events (f : poll_event → bool) (es : list poll_event)
  : nat :=
  length (filter (λ e, f e = true) es).

End App.

(** [formatRelativeTime(date)], with [now] the time value of [new Date()]
    and [date] that of the argument, both in integer milliseconds (an
    invalid date has no time value and is outside the model).  While the
    difference stays within [2^53] in size, as it does for every valid date
    and a present-day clock, it is exact, and each double quotient followed
    by [Math.floor] is the integer floor division. *)
Definition formatRelativeTime (now date : Z) : string :=
  let diff := (now - date)%Z in
  let seconds := (diff / 1000)%Z in
  let minutes := (seconds / 60)%Z in
  let hours := (minutes / 60)%Z in
  let days := (hours / 24)%Z in
  if (0 <? days)%Z then pretty days ++ "d ago"
  else if (0 <? hours)%Z then pretty hours ++ "h ago"
  else if (0 <? minutes)%Z then pretty minutes ++ "m ago"
  else pretty seconds ++ "s ago".

(** *** [animateCounter]

    The arithmetic [animateCounter] uses, on numbers left abstract. *)
Class Arith (number : Type) := {
  lit : Z → number;                       (* an integer literal *)
  add : number → number → number;
  sub : number → number → number;
  div : number → number → number;
  gt : number → number → bool;
  ge : number → number → bool;
  lt : number → number → bool;
  le : number → number → bool;
  floor : number → number                 (* Math.floor *)
}.

Section Counter.
Context {number : Type} `{!Arith number}.

(** One running [animateCounter] call on an element that exists: the
    variables its closure holds, what the element shows, and whether a
    [requestAnimationFrame(animate)] is pending. *)
Record animation := Animation {
  currentValue : number;
  increment : number;
  targetValue : number;
  textContent : number;
  frame_pending : bool
}.

(** The inner function [animate]. *)
Definition animate (s : animation) : animation :=
  let currentValue := add (currentValue s) (increment s) in
  if (gt (increment s) (lit 0) && ge currentValue (targetValue s))
     || (lt (increment s) (lit 0) && le currentValue (targetValue s))
  then Animation currentValue (increment s) (targetValue s)
                 (targetValue s) false
  else Animation currentValue (increment s) (targetValue s)
                 (floor currentValue) true.

(** [animateCounter(elementId, targetValue, duration)] for an element that
    exists, with [startValue] the value of
    [parseInt(element.textContent) || 0]: it ends with the first call of
    [animate]. *)
Definition animateCounter (startValue targetValue duration : number)
  : animation :=
  let increment := div (sub targetValue startValue)
                       (div duration (lit 16)) in
  animate (Animation startValue increment targetValue startValue false).

(** The browser runs the pending animation frame, if there is one. *)
Definition next_frame (s : animation) : animation :=
  if frame_pending s then animate s else s.

End Counter.

End BrainSaitApp.

(** ** The dashboard page: the effect of [Dashboard] on [wsData] *)

Module Dashboard.
Import JS.

(** The resources the page polls with [useQuery]. *)
Inductive resource := Agents | Metrics | Alerts | Workflows.

(** The three [refetch] functions the effect can call. *)
Inductive refetch := refetchAgents | refetchMetrics | refetchAlerts.

Section Effect.
Context {number : Type} `{!JSNumber number}.

(** The body of [useEffect(() => { ... }, [wsData, ...])]: [wsData] is the
    [data] object of the provider; the result lists the calls in order. *)
Definition on_wsData (wsData : gmap string (value number)) : list refetch :=
  let type := default VUndefined (wsData !! "type") in
  (if strict_eq_str type "agent_execution_complete"
      || strict_eq_str type "agent_execution_error"
   then [refetchAgents; refetchMetrics] else [])
  ++ (if strict_eq_str type "new_alert"
         || strict_eq_str type "alert_dismissed"
      then [refetchAlerts] else []).

(** The four fetchers differ in their url only:
    [const response = await fetch(url); return response.json();].  The
    promise rejects when the fetch does or when the body is not JSON; the
    [ok] flag of the response is not read. *)
Definition fetch_json (r : BrainSaitApp.fetch_result number)
  : exn + value number :=
  match r with
  | BrainSaitApp.Rejected => inl TypeError
  | BrainSaitApp.Response _ json => from_option inr (inl SyntaxError) json
  end.

Definition fetchAgents := fetch_json.
Definition fetchMetrics := fetch_json.
Definition fetchAlerts := fetch_json.
Definition fetchWorkflows := fetch_json.

(** The fetcher each [useQuery] call of [Dashboard] is given. *)
Definition fetcher (R : resource)
  : BrainSaitApp.fetch_result number → exn + value number :=
  match R with
  | Agents => fetchAgents
  | Metrics => fetchMetrics
  | Alerts => fetchAlerts
  | Workflows => fetchWorkflows
  end.

(** Modelled from the spec: the [ResourceSnapshot] of one polled resource
    and the rule by which a completed fetch updates it (success: replace
    payload, clear error flag, stamp time; failure: keep old payload, set
    error flag, stamp time).  In the repository [useQuery] of react-query
    keeps this cell, and that library is not part of the source; a
    fetcher's promise that resolves is its success, one that rejects its
    failure. *)
Record snapshot := Snapshot {
  payload : option (value number);
  error_flag : bool;
  stamp : nat
}.

Definition complete (now : nat) (outcome : exn + value number)
    (s : snapshot) : snapshot :=
  match outcome with
  | inr v => Snapshot (Some v) false now
  | inl _ => Snapshot (payload s) true now
  end.

End Effect.

End Dashboard.

(** ** A concrete instance

    Numbers are the integers and [JSON.parse] is implemented for the
    fragment of JSON whose numbers are integer literals; it agrees with the
    platform function on that fragment and rejects every other text, and it
    is applied below to texts of the fragment and to text that is no JSON at
    all.  [stringify] writes the keys of an object in the order of the map,
    where JavaScript uses insertion order. *)

Module Reference.
Import JS.

#[global] Instance Z_number : JSNumber Z := {|
  number_to_string := pretty;
  number_truthy := λ n, negb (n =? 0)%Z
|}.

(** A number system in which to run [animateCounter]: the integers, with
    the quotient rounded down.  It is no model of doubles; it obeys the
    laws the theorem on unchanged counters assumes. *)
#[global] Instance Z_arith : BrainSaitApp.Arith Z := {|
  BrainSaitApp.lit := λ n, n;
  BrainSaitApp.add := Z.add;
  BrainSaitApp.sub := Z.sub;
  BrainSaitApp.div := Z.div;
  BrainSaitApp.gt := Z.gtb;
  BrainSaitApp.ge := Z.geb;
  BrainSaitApp.lt := Z.ltb;
  BrainSaitApp.le := Z.leb;
  BrainSaitApp.floor := λ n, n
|}.

Definition dquote : ascii := "034"%char.

Definition quoted (s : string) : string :=
  String dquote (s ++ String dquote "").

Definition is_ws (c : ascii) : bool :=
  match nat_of_ascii c with
  | 32 | 9 | 10 | 13 => true
  | _ => false
  end.

Fixpoint skip_ws (s : string) : string :=
  match s with
  | String c r => if is_ws c then skip_ws r else s
  | EmptyString => s
  end.

Definition digit (c : ascii) : option Z :=
  let n := nat_of_ascii c in
  if decide (48 ≤ n ≤ 57)%nat then Some (Z.of_nat (n - 48)) else None.

Fixpoint more_digits (acc : Z) (s : string) : Z * string :=
  match s with
  | String c r =>
      match digit c with
      | Some d => more_digits (10 * acc + d) r
      | None => (acc, s)
      end
  | EmptyString => (acc, s)
  end.

Definition starts_fraction (s : string) : bool :=
  match s with
  | String c _ => bool_decide (c = "."%char ∨ c = "e"%char ∨ c = "E"%char)
  | EmptyString => false
  end.

(** [0], or a non-zero digit followed by digits. *)
Definition unsigned_int (s : string) : option (Z * string) :=
  match s with
  | String c r =>
      match digit c with
      | Some 0%Z =>
          match r with
          | String c' _ =>
              match digit c' with
              | Some _ => None
              | None => if starts_fraction r then None else Some (0%Z, r)
              end
          | EmptyString => Some (0%Z, r)
          end
      | Some d =>
          let '(n, r') := more_digits d r in
          if starts_fraction r' then None else Some (n, r')
      | None => None
      end
  | EmptyString => None
  end.

Definition escape (c : ascii) : option ascii :=
  match nat_of_ascii c with
  | 34 | 92 | 47 => Some c
  | 98 => Some "008"%char
  | 102 => Some "012"%char
  | 110 => Some "010"%char
  | 114 => Some "013"%char
  | 116 => Some "009"%char
  | _ => None
  end.

(** The characters of a string literal after its opening quote. *)
Fixpoint string_body (s : string) : option (string * string) :=
  match s with
  | EmptyString => None
  | String c r =>
      if bool_decide (c = dquote) then Some ("", r)
      else if bool_decide (c = "\"%char) then
        match r with
        | String e r' =>
            x ← escape e;
            '(t, rest) ← string_body r';
            Some (String x t, rest)
        | EmptyString => None
        end
      else if decide (nat_of_ascii c < 32)%nat then None
      else '(t, rest) ← string_body r; Some (String c t, rest)
  end.

Definition literal (lit : string) (v : value Z) (s : string)
  : option (value Z * string) :=
  if String.prefix lit s
  then Some (v, String.substring (String.length lit)
                  (String.length s - String.length lit)%nat s)
  else None.

Fixpoint parse_value (fuel : nat) (s : string) : option (value Z * string) :=
  match fuel with
  | 0 => None
  | S fuel =>
      match skip_ws s with
      | EmptyString => None
      | String c r as s' =>
          if bool_decide (c = "{"%char) then
            match skip_ws r with
            | String "}"%char r' => Some (VObject ∅, r')
            | r' => parse_members fuel r' ∅
            end
          else if bool_decide (c = "["%char) then
            match skip_ws r with
            | String "]"%char r' => Some (VArray [], r')
            | r' => parse_elements fuel r' []
            end
          else if bool_decide (c = dquote) then
            '(t, rest) ← string_body r; Some (VString t, rest)
          else if bool_decide (c = "-"%char) then
            '(n, rest) ← unsigned_int r; Some (VNumber (- n)%Z, rest)
          else if bool_decide (c = "t"%char) then literal "true" (VBool true) s'
          else if bool_decide (c = "f"%char) then literal "false" (VBool false) s'
          else if bool_decide (c = "n"%char) then literal "null" VNull s'
          else '(n, rest) ← unsigned_int s'; Some (VNumber n, rest)
      end
  end
with parse_members (fuel : nat) (s : string) (acc : gmap string (value Z))
  : option (value Z * string) :=
  match fuel with
  | 0 => None
  | S fuel =>
      match skip_ws s with
      | String c r =>
          if bool_decide (c = dquote) then
            '(k, r1) ← string_body r;
            match skip_ws r1 with
            | String ":"%char r2 =>
                '(v, r3) ← parse_value fuel r2;
                match skip_ws r3 with
                | String ","%char r4 => parse_members fuel r4 (<[k:=v]> acc)
                | String "}"%char r4 => Some (VObject (<[k:=v]> acc), r4)
                | _ => None
                end
            | _ => None
            end
          else None
      | EmptyString => None
      end
  end
with parse_elements (fuel : nat) (s : string) (acc : list (value Z))
  : option (value Z * string) :=
  match fuel with
  | 0 => None
  | S fuel =>
      '(v, r) ← parse_value fuel s;
      match skip_ws r with
      | String ","%char r' => parse_elements fuel r' (acc ++ [v])
      | String "]"%char r' => Some (VArray (acc ++ [v]), r')
      | _ => None
      end
  end.

Definition JSON_parse (s : string) : option (value Z) :=
  '(v, rest) ← parse_value (S (String.length s)) s;
  match skip_ws rest with
  | EmptyString => Some v
  | _ => None
  end.

Fixpoint stringify (v : value Z) : option string :=
  match v with
  | VUndefined => None
  | VNull => Some "null"
  | VBool true => Some "true"
  | VBool false => Some "false"
  | VNumber n => Some (pretty n)
  | VString s => Some (quoted s)
  | VArray l =>
      Some ("[" ++ join_with ","
                     ((λ x, default "null" (stringify x)) <$> l) ++ "]")
  | VObject o =>
      Some ("{" ++ join_with ","
                     (map_fold (λ k x acc,
                        match stringify x with
                        | Some t => (quoted k ++ ":" ++ t) :: acc
                        | None => acc
                        end) [] o) ++ "}")
  end.

(** The frame of the alert scenario:
    [{ type: new_alert, alert: { type: critical, title: X } }] as JSON text. *)
Definition critical_alert_frame : string :=
  "{" ++ quoted "type" ++ ":" ++ quoted "new_alert" ++ "," ++
  quoted "alert" ++ ":{" ++ quoted "type" ++ ":" ++ quoted "critical" ++ "," ++
  quoted "title" ++ ":" ++ quoted "X" ++ "}}".

End Reference.

(** ** Sample frames and states *)

Module Samples.
Import JS LiveChannel Reference.

(** The client after mount and handshake. *)
Definition opened : @client Z :=
  exec (onopen 0) (set_ready 0 OPEN (exec (connect true) init)).

(** The same client once the server has started the closing handshake. *)
Definition closing : @client Z := set_ready 0 CLOSING opened.

(** The client after mount and a failed first attempt. *)
Definition lost : @client Z :=
  exec onclose (exec onerror (set_ready 0 CLOSED (exec (connect true) init))).

Definition dismissed_frame : string :=
  "{" ++ quoted "type" ++ ":" ++ quoted "alert_dismissed" ++ "}".


Definition untitled_warning_frame : string :=
  "{" ++ quoted "type" ++ ":" ++ quoted "new_alert" ++ "," ++
  quoted "alert" ++ ":{" ++ quoted "type" ++ ":" ++ quoted "warning" ++ "}}".

Definition alert_without_alert_frame : string :=
  "{" ++ quoted "type" ++ ":" ++ quoted "new_alert" ++ "}".

Definition agent_error_frame : string :=
  "{" ++ quoted "type" ++ ":" ++ quoted "agent_execution_error" ++ "," ++
  quoted "agent_id" ++ ":[7,null]}".

End Samples.

(** * Properties of the object spread *)

Section SpreadFacts.
Import JS.
Context {number : Type} `{!JSNumber number}.




End SpreadFacts.

(** * Properties of the Live Channel Client *)

Section LiveChannelFacts.
Import JS LiveChannel.
Context {number : Type} `{!JSNumber number}.
Variable JSON_parse : string → option (value number).
Variable JSON_stringify : value number → option string.

Implicit Types (c : @client number) (m message msg v : value number).

(** *** Computations that only leave notes *)

Lemma appends_nil c : appends [] c = c.
Proof. destruct c; unfold appends; simpl. by rewrite app_nil_r. Qed.

Lemma appends_appends (ks1 ks2 : list call) c :
  appends ks2 (appends ks1 c) = appends (ks1 ++ ks2)%list c.
Proof. unfold appends; simpl. by rewrite app_assoc. Qed.

Lemma log_appends k c : log k c = appends [k] c.
Proof. reflexivity. Qed.

Lemma quiet_lift {A} (r : exn + A) : quiet (lift r : M (@client number) A).
Proof.
  exists r, []. split; [done|]. intros c. unfold lift. by rewrite appends_nil.
Qed.

Lemma quiet_ret {A} (a : A) : quiet (mret a : M (@client number) A).
Proof. apply (quiet_lift (inr a)). Qed.

Lemma quiet_toast k msg : quiet (toast k msg).
Proof. exists (inr ()), [Toast k msg]. split; [by repeat constructor | done]. Qed.

Lemma quiet_console_error label :
  quiet (console_error label : M (@client number) unit).
Proof.
  exists (inr ()), [ConsoleError label]. split; [by repeat constructor | done].
Qed.

Lemma quiet_bind {A B}
    (m : M (@client number) A) (k : A → M (@client number) B) :
  quiet m → (∀ a, quiet (k a)) → quiet (m ≫= k).
Proof.
  intros (r1 & ks1 & F1 & E1) Hk. destruct r1 as [e|a].
  - exists (inl e), ks1. split; [done|]. intros c.
    unfold mbind, M_bind, bind. by rewrite E1.
  - destruct (Hk a) as (r2 & ks2 & F2 & E2).
    exists r2, (ks1 ++ ks2)%list. split; [by apply Forall_app|]. intros c.
    unfold mbind, M_bind, bind. by rewrite E1, E2, appends_appends.
Qed.

Lemma quiet_try_catch {A}
    (m : M (@client number) A) (h : exn → M (@client number) A) :
  quiet m → (∀ e, quiet (h e)) → quiet (try_catch m h).
Proof.
  intros (r1 & ks1 & F1 & E1) Hh. destruct r1 as [e|a].
  - destruct (Hh e) as (r2 & ks2 & F2 & E2).
    exists r2, (ks1 ++ ks2)%list. split; [by apply Forall_app|]. intros c.
    unfold try_catch. by rewrite E1, E2, appends_appends.
  - exists (inr a), ks1. split; [done|]. intros c.
    unfold try_catch. by rewrite E1.
Qed.

Lemma quiet_type_is message lit : quiet (type_is message lit).
Proof. apply quiet_bind; [apply quiet_lift | intros; apply quiet_ret]. Qed.

Lemma quiet_interpolate v k : quiet (interpolate v k).
Proof. apply quiet_bind; [apply quiet_lift | intros; apply quiet_lift]. Qed.

Lemma quiet_handle_message_type message :
  quiet (handle_message_type message).
Proof.
  unfold handle_message_type.
  repeat first
    [ apply quiet_toast | apply quiet_ret | apply quiet_lift
    | apply quiet_type_is | apply quiet_interpolate
    | apply quiet_bind; [| intros ?]
    | match goal with |- quiet (if ?b then _ else _) => destruct b end ].
Qed.

(** The dispatch inside its [try]: it always returns. *)
Lemma quiet_dispatch_caught message :
  ∃ ks, Forall is_note ks
        ∧ ∀ c, try_catch (handle_message_type message)
                 (λ _, console_error "Failed to parse WebSocket message:") c
               = (inr (), appends ks c).
Proof.
  destruct (quiet_handle_message_type message) as (r & ks & F & E).
  destruct r as [e|[]].
  - exists (ks ++ [ConsoleError "Failed to parse WebSocket message:"])%list.
    split; [apply Forall_app; split; [done | by repeat constructor]|].
    intros c. unfold try_catch. rewrite E.
    unfold console_error, modify. by rewrite log_appends, appends_appends.
  - exists ks. split; [done|]. intros c. unfold try_catch. by rewrite E.
Qed.

(** *** The message handler, case by case *)

Lemma onmessage_unfold raw c :
  onmessage JSON_parse raw c
  = match JSON_parse raw with
    | None =>
        (inr (), log (ConsoleError "Failed to parse WebSocket message:") c)
    | Some m =>
        try_catch (handle_message_type m)
          (λ _, console_error "Failed to parse WebSocket message:")
          (exec (setData m) c)
    end.
Proof.
  unfold onmessage, try_catch, mbind, M_bind, bind, lift.
  by destruct (JSON_parse raw).
Qed.

Lemma onmessage_malformed raw c :
  JSON_parse raw = None →
  onmessage JSON_parse raw c
  = (inr (), log (ConsoleError "Failed to parse WebSocket message:") c).
Proof. intros E. by rewrite onmessage_unfold, E. Qed.

Lemma onmessage_parsed raw m :
  JSON_parse raw = Some m →
  ∃ ks, Forall is_note ks
        ∧ ∀ c, onmessage JSON_parse raw c
               = (inr (), appends ks (exec (setData m) c)).
Proof.
  intros E. destruct (quiet_dispatch_caught m) as (ks & F & Eh).
  exists ks. split; [done|]. intros c. by rewrite onmessage_unfold, E, Eh.
Qed.

Lemma handle_critical_alert c :
  handle_message_type critical_alert c
  = (inr (), log (Toast toast_error (VString "X")) c).
Proof. reflexivity. Qed.

Lemma omap_notes {B} (f : call → option B) (ks : list (@call number)) :
  (∀ k, is_note k → f k = None) → Forall is_note ks → omap f ks = [].
Proof.
  intros Hf. induction 1 as [|k ks Hk _ IH]; [done|].
  simpl. rewrite (Hf k Hk). exact IH.
Qed.

Lemma handled_appends ks c :
  Forall is_note ks → handled (appends ks c) = handled c.
Proof.
  intros F. unfold handled, appends; simpl.
  rewrite omap_app, (omap_notes _ ks); [by rewrite app_nil_r | | done].
  by intros [].
Qed.

Lemma handled_setData m c :
  handled (exec (setData m) c) = (handled c ++ [m])%list.
Proof. unfold handled; simpl. by rewrite omap_app. Qed.

(** What one frame does to the fields the claims speak of. *)
Lemma onmessage_effect raw c :
  let c' := exec (onmessage JSON_parse raw) c in
  returns (onmessage JSON_parse raw) c = true
  ∧ isConnected c' = isConnected c ∧ socket c' = socket c
  ∧ transports c' = transports c ∧ timers c' = timers c
  ∧ handled c' = (handled c ++ option_list (JSON_parse raw))%list
  ∧ data c' = from_option (spread (data c)) (data c) (JSON_parse raw)
  ∧ calls c' = (calls c ++ frame_calls JSON_parse raw)%list.
Proof.
  unfold frame_calls, exec, returns. destruct (JSON_parse raw) as [m|] eqn:E.
  - destruct (onmessage_parsed raw m E) as (ks & F & Eq). rewrite !Eq. simpl.
    rewrite handled_appends, handled_setData by done.
    repeat split; try done. by rewrite <- app_assoc.
  - rewrite !(onmessage_malformed raw _ E). simpl.
    repeat split; try done.
    rewrite log_appends, handled_appends, app_nil_r; [done|].
    by repeat constructor.
Qed.

(** *** Inbound frames *)

(** C5.  A frame whose payload does not parse is logged and dropped: the
    handler returns normally, its only trace is one console line, and the
    data, the connection state (flag, socket, transports), the pending
    timers and the notifications are what they were. *)
Theorem malformed_frame_logged_and_dropped raw c :
  JSON_parse raw = None →
  let c' := exec (onmessage JSON_parse raw) c in
  returns (onmessage JSON_parse raw) c = true
  ∧ calls c'
    = (calls c ++ [ConsoleError "Failed to parse WebSocket message:"])%list
  ∧ data c' = data c
  ∧ isConnected c' = isConnected c ∧ socket c' = socket c
  ∧ transports c' = transports c ∧ timers c' = timers c
  ∧ toasts c' = toasts c.
Proof.
  intros E. unfold exec, returns. rewrite (onmessage_malformed raw c E).
  simpl. repeat split; try done.
  unfold toasts; simpl. by rewrite omap_app, app_nil_r.
Qed.

(** C6.  The frame [{ type: 'new_alert', alert: { type: 'critical',
    title: 'X' } }] raises exactly one notification, an error toast titled
    X, and leaves the connection state as it was. *)
Theorem critical_alert_raises_one_error_toast raw c :
  JSON_parse raw = Some critical_alert →
  let c' := exec (onmessage JSON_parse raw) c in
  toasts c' = (toasts c ++ [(toast_error, VString "X")])%list
  ∧ calls c'
    = (calls c ++ [SetData critical_alert;
                   Toast toast_error (VString "X")])%list
  ∧ isConnected c' = isConnected c ∧ socket c' = socket c
  ∧ transports c' = transports c ∧ timers c' = timers c.
Proof.
  intros E. unfold exec. rewrite onmessage_unfold, E.
  unfold try_catch. rewrite handle_critical_alert.
  simpl. repeat split; try done.
  - unfold toasts; simpl. by rewrite !omap_app, app_nil_r.
  - by rewrite <- app_assoc.
Qed.

(** C8.  Frames delivered on an open socket are handled one by one in
    arrival order: the browser can deliver every frame of the sequence; the
    frames that reached [setData] are exactly the well-formed frames of the
    sequence, each once and in order; the data is their left-to-right merge;
    and the calls made are the calls of the first frame, then those of the
    second, and so on, none held back or moved. *)
Theorem frames_handled_in_arrival_order ws frames c :
  ready c ws = Some OPEN →
  ∃ c', run JSON_parse (Message ws <$> frames) c = Some c'
        ∧ handled c' = (handled c ++ omap JSON_parse frames)%list
        ∧ data c' = foldl spread (data c) (omap JSON_parse frames)
        ∧ calls c'
          = (calls c ++ concat (frame_calls JSON_parse <$> frames))%list.
Proof.
  revert c. induction frames as [|raw frames IH]; intros c Hopen.
  - exists c. by rewrite !app_nil_r.
  - destruct (onmessage_effect raw c) as (_ & _ & _ & Ht & _ & Hh & Hd & Hc).
    destruct (IH (exec (onmessage JSON_parse raw) c))
      as (c' & Hr & Hh' & Hd' & Hc').
    { unfold ready in *. by rewrite Ht. }
    exists c'. simpl. rewrite Hopen. simpl. split; [done|].
    rewrite Hh', Hd', Hc', Hh, Hd, Hc, <- !app_assoc.
    repeat split; by destruct (JSON_parse raw).
Qed.


(** *** Outbound messages *)

(** C9.  Without a socket, or with a socket that is not [OPEN],
    [sendMessage] returns normally and changes nothing; with an open
    socket it appends the serialized message to what was sent on it. *)
Theorem sendMessage_only_when_open message c :
  ((socket c = None ∨ ∃ ws, socket c = Some ws ∧ ready c ws ≠ Some OPEN) →
   sendMessage JSON_stringify message c = (inr (), c))
  ∧ (∀ ws t,
       socket c = Some ws → transports c !! ws = Some t →
       readyState t = OPEN →
       sendMessage JSON_stringify message c
       = (inr (),
          set_transports
            (<[ws := Transport OPEN
                       (sent t ++ [default "undefined"
                                     (JSON_stringify message)])]>
               (transports c)) c)).
Proof.
  unfold sendMessage, mbind, M_bind, bind, gets, ready. split.
  - intros [E | (ws & E & Hr)]; rewrite E; simpl; [done|].
    destruct (transports c !! ws) as [[[] ?]|]; simpl in *; done.
  - intros ws t E Ht Ho. rewrite E. simpl. rewrite Ht. simpl. rewrite Ho.
    unfold ws_send, modify. do 2 f_equal.
    apply list_eq. intros i. destruct (decide (ws = i)) as [<-|Hne].
    + rewrite list_lookup_alter_eq, Ht, list_lookup_insert_eq.
      * simpl. by rewrite Ho.
      * by apply lookup_lt_Some with t.
    + by rewrite list_lookup_alter_ne, list_lookup_insert_ne.
Qed.

(** *** Connecting and reconnecting *)

Lemma connect_ok c :
  connect true c
  = (inr (), set_transports (transports c ++ [Transport CONNECTING []]) c).
Proof. reflexivity. Qed.

Lemma connect_throws c :
  connect false c
  = (inr (),
     Client (isConnected c) (socket c) (data c) (transports c)
            (timers c ++ [5000])
            (calls c ++ [ConsoleError "Failed to connect WebSocket:"])).
Proof. reflexivity. Qed.

Lemma timers_cleanup captured c :
  timers (exec (cleanup captured) c) = timers c.
Proof. by destruct captured. Qed.

Lemma step_Closed ws failed c c' :
  step JSON_parse (Closed ws failed) c = Some c' →
  timers c' = (timers c ++ [3000])%list
  ∧ length (transports c') = length (transports c)
  ∧ ready c' ws = Some CLOSED
  ∧ isConnected c' = false ∧ socket c' = None.
Proof.
  unfold step. destruct (ready c ws) as [r|] eqn:Hr; [|done].
  assert (ready (set_ready ws CLOSED c) ws = Some CLOSED) as Hc.
  { unfold ready, set_ready in *; simpl.
    rewrite list_lookup_alter_eq. by destruct (transports c !! ws). }
  assert (length (transports (set_ready ws CLOSED c)) = length (transports c))
    as Hl by apply length_alter.
  destruct r; [| | |done]; intros [= <-]; by destruct failed.
Qed.

Lemma step_TimerDue_ok i c :
  is_Some (timers c !! i) →
  ∃ c', step JSON_parse (TimerDue i true) c = Some c'
        ∧ transports c' = (transports c ++ [Transport CONNECTING []])%list
        ∧ timers c' = delete i (timers c).
Proof. intros [d Hd]. unfold step. rewrite Hd. by eexists. Qed.

(** C1 (amended).  The cleanup cancels no timer, and a close event that
    the browser delivers after the cleanup is handled like any other: the
    handler schedules [connect] after 3000 ms, and when that timer comes
    due [connect] opens a new socket. *)
Theorem close_after_cleanup_still_reconnects captured ws failed c c' :
  step JSON_parse (Closed ws failed) (exec (cleanup captured) c) = Some c' →
  timers (exec (cleanup captured) c) = timers c
  ∧ timers c' = (timers c ++ [3000])%list
  ∧ ∃ c'', step JSON_parse (TimerDue (length (timers c)) true) c' = Some c''
           ∧ transports c''
             = (transports c' ++ [Transport CONNECTING []])%list.
Proof.
  intros Hs. apply step_Closed in Hs as (Ht & _).
  rewrite timers_cleanup in Ht. split; [apply timers_cleanup|].
  split; [done|].
  destruct (step_TimerDue_ok (length (timers c)) c') as (c'' & Hs & Htr & _).
  { rewrite Ht. rewrite lookup_app_r, Nat.sub_diag; [by eexists | lia]. }
  by exists c''.
Qed.

(** C2 (amended).  [connect] does not look at the state: every call whose
    constructor succeeds opens one more socket, in state [CONNECTING], and
    changes nothing else; [n] calls in a row open [n] sockets. *)
Theorem connect_opens_a_socket_in_every_state c :
  exec (connect true) c
  = set_transports (transports c ++ [Transport CONNECTING []]) c
  ∧ ∀ n, length (transports (Nat.iter n (exec (connect true)) c))
         = n + length (transports c).
Proof.
  split; [done|]. induction n as [|n IH]; [done|].
  simpl. rewrite length_app, IH. simpl. lia.
Qed.

Lemma run_cons e es c c1 :
  step JSON_parse e c = Some c1 →
  run JSON_parse (e :: es) c = run JSON_parse es c1.
Proof. intros Hs. simpl. by rewrite Hs. Qed.

Lemma drops_run n :
  ∀ c ts,
    transports c = (ts ++ [Transport CONNECTING []])%list → timers c = [] →
    ∃ c', run JSON_parse (drops n (length ts)) c = Some c'
          ∧ length (transports c') = n + length (transports c)
          ∧ timers c' = [].
Proof.
  induction n as [|n IH]; intros c ts Hts Ht; [by exists c|].
  assert (ready c (length ts) = Some CONNECTING) as Hr.
  { unfold ready. rewrite Hts, lookup_app_r, Nat.sub_diag; [done|lia]. }
  destruct (step JSON_parse (Closed (length ts) true) c) as [c1|] eqn:H1;
    [| by unfold step in H1; rewrite Hr in H1].
  pose proof H1 as H1'. apply step_Closed in H1' as (Ht1 & Hl1 & _).
  rewrite Ht in Ht1. simpl in Ht1.
  destruct (step_TimerDue_ok 0 c1) as (c2 & H2 & Htr2 & Ht2);
    [by rewrite Ht1; eexists|].
  rewrite Ht1 in Ht2. simpl in Ht2.
  destruct (IH c2 (transports c1)) as (c' & Hrun & Hlen & Htm); [done..|].
  rewrite Hl1, Hts, length_app in Hrun. simpl in Hrun.
  replace (length ts + 1) with (S (length ts)) in Hrun by lia.
  exists c'. cbn [drops].
  rewrite (run_cons _ _ _ _ H1), (run_cons _ _ _ _ H2).
  split; [done|]. split; [|done].
  rewrite Hlen, Htr2, length_app, Hl1. simpl. lia.
Qed.

(** C7 (amended).  The retry delays are two constants: 3000 ms after a
    close event and 5000 ms after a [connect] whose constructor throws; a
    [connect] that opens a socket sets no timer.  Neither delay depends on
    the state, and no attempt is the last: after any number [n] of lost
    sockets, each followed by its timer, the client holds socket number
    [n] and no attempt was refused. *)
Theorem retry_delays_are_fixed c :
  timers (exec onclose c) = (timers c ++ [3000])%list
  ∧ timers (exec (connect false) c) = (timers c ++ [5000])%list
  ∧ timers (exec (connect true) c) = timers c
  ∧ (∀ ws failed c',
       step JSON_parse (Closed ws failed) c = Some c' →
       timers c' = (timers c ++ [3000])%list)
  ∧ ∀ n, ∃ c', run JSON_parse (drops n 0) (exec (connect true) init)
               = Some c'
             ∧ length (transports c') = S n ∧ timers c' = [].
Proof.
  repeat split; try done.
  - intros ws failed c' Hs. by apply step_Closed in Hs as (? & _).
  - intros n.
    destruct (drops_run n (exec (connect true) init) [])
      as (c' & Hr & Hl & Ht); [done..|].
    exists c'. split; [done|]. split; [|done]. rewrite Hl. simpl. lia.
Qed.

End LiveChannelFacts.

(** * Properties of the metrics poller *)

Section BrainSaitAppFacts.
Import JS BrainSaitApp.
Context {number : Type} `{!JSNumber number}.
Implicit Types (a : @app number) (r : fetch_result number).

Lemma updateMetrics_resume_failed dom_complete status_complete r a :
  fetch_failed r = true →
  updateMetrics_resume dom_complete status_complete r a
  = (if status_complete then inr () else inl TypeError,
     match r with
     | Response false _ => a
     | _ => App false (metrics a) (in_flight a) (intervals a)
                (console a ++ ["Metrics update failed:"])
     end).
Proof. destruct status_complete, r as [|[] [?|]], a; done. Qed.

(** X21.  When the fetch fails (the request is rejected, the response is
    not [ok], or its body is not JSON), [updateMetrics] leaves the stored
    metrics as they were; of the other fields only the connection flag and
    the console can differ.  The call ends normally unless the status
    element of the page is incomplete. *)
Theorem failed_fetch_keeps_metrics dom_complete status_complete r a :
  fetch_failed r = true →
  let a' := exec (updateMetrics_resume dom_complete status_complete r) a in
  returns (updateMetrics_resume dom_complete status_complete r) a
  = status_complete
  ∧ metrics a' = metrics a
  ∧ in_flight a' = in_flight a ∧ intervals a' = intervals a
  ∧ isConnected a' = match r with
                     | Response false _ => isConnected a
                     | _ => false
                     end
  ∧ metrics (settle dom_complete status_complete r a) = metrics a.
Proof.
  intros Hf. unfold settle, exec, returns.
  rewrite !updateMetrics_resume_failed by done.
  by destruct status_complete, r as [|[] ?].
Qed.

(** C3.  The claim fails on the pollers of the dashboard page.  A response
    that is not [ok] and carries a JSON body is a failed fetch, yet the
    fetcher of every resource resolves with that body, because it never
    reads [response.ok]; the completed fetch then replaces the payload of
    the snapshot with the body and clears the error flag.  A fetch that is
    rejected, or whose body is not JSON, keeps the payload; and
    [updateMetrics], which does test [response.ok], keeps its stored
    metrics at the very same response. *)
Theorem non_ok_response_replaces_the_payload
    (R : Dashboard.resource) (body : value number) (now : nat)
    (s : Dashboard.snapshot) dom_complete status_complete a :
  fetch_failed (Response false (Some body)) = true
  ∧ Dashboard.fetcher R (Response false (Some body)) = inr body
  ∧ Dashboard.complete now
      (Dashboard.fetcher R (Response false (Some body))) s
    = Dashboard.Snapshot (Some body) false now
  ∧ Dashboard.payload
      (Dashboard.complete now (Dashboard.fetcher R Rejected) s)
    = Dashboard.payload s
  ∧ (∀ ok, Dashboard.payload
             (Dashboard.complete now
                (Dashboard.fetcher R (Response ok None)) s)
           = Dashboard.payload s)
  ∧ metrics (exec (updateMetrics_resume dom_complete status_complete
                     (Response false (Some body))) a)
    = metrics a.
Proof.
  repeat split; try by destruct R.
  unfold exec. by rewrite updateMetrics_resume_failed.
Qed.

(** C4 (amended).  The interval callback calls [updateMetrics] without
    asking whether an earlier call is still waiting: each tick of the
    metrics interval adds one fetch in flight, so [n] ticks with no fetch
    settled leave [n] more in flight. *)
Theorem every_tick_starts_a_fetch a i delay :
  intervals a !! i = Some (delay, UpdateMetrics) →
  in_flight (tick i a) = S (in_flight a)
  ∧ ∀ n, in_flight (Nat.iter n (tick i) a) = n + in_flight a.
Proof.
  intros Hi.
  assert (∀ n, intervals (Nat.iter n (tick i) a) = intervals a
               ∧ in_flight (Nat.iter n (tick i) a) = n + in_flight a) as H.
  { induction n as [|n [IHi IHf]]; [done|].
    simpl. unfold tick at 1 3. rewrite IHi, Hi. simpl. by rewrite IHi, IHf. }
  split; [apply (H 1) | apply H].
Qed.

End BrainSaitAppFacts.

(** * The claims at concrete inputs *)

Section Instances.
Import JS Reference.

(** ** Live Channel Client *)
Section Live.
Import LiveChannel.

(** C1 (as stated) fails.  Mount, handshake, unmount: the cleanup, holding
    the [socket] of the first render, closes nothing; when the connection
    is lost afterwards the handler schedules a reconnect, and the timer
    opens a second socket.  Had the cleanup held the open socket, its
    [close()] would have led to the same reconnect. *)
Lemma teardown_does_not_stop_reconnects :
  timers <$> session JSON_parse true [Open 0] [Closed 0 false]
  = Some [3000]
  ∧ length ∘ transports
      <$> session JSON_parse true [Open 0] [Closed 0 false; TimerDue 0 true]
    = Some 2
  ∧ (c1 ← run JSON_parse [Open 0] (exec (connect true) init);
     c2 ← run JSON_parse [Closed 0 false] (exec (cleanup (Some 0)) c1);
     c3 ← run JSON_parse [TimerDue 0 true] c2;
     Some (ready (exec (cleanup (Some 0)) c1) 0, timers c2,
           length (transports c3)))
    = Some (Some CLOSING, [3000], 2).
Proof. by vm_compute. Qed.

Lemma close_after_cleanup_still_reconnects_witness :
  let c := exec (onopen 0) (set_ready 0 OPEN (exec (connect true) init)) in
  ∃ c', step JSON_parse (Closed 0 false) (exec (cleanup (Some 0)) c)
        = Some c'
        ∧ timers c' = [3000].
Proof.
  eexists. split; [reflexivity|].
  exact (proj1 (proj2
           (close_after_cleanup_still_reconnects JSON_parse (Some 0) 0 false
              (exec (onopen 0) (set_ready 0 OPEN (exec (connect true) init)))
              _ eq_refl))).
Defined.

(** C2 (as stated) fails.  After one [connect] the client is connecting;
    a second [connect] is no no-op and two sockets are open. *)
Lemma connect_twice_opens_two_sockets :
  let c1 := exec (connect true) (@init Z) in
  connecting_or_connected c1
  ∧ exec (connect true) c1 ≠ c1
  ∧ length (transports (exec (connect true) c1)) = 2.
Proof.
  split; [right; by exists 0|]. split; [|done].
  intros E. by apply (f_equal (length ∘ transports)) in E.
Qed.

(** C7 (as stated) fails.  A [connect] whose constructor throws waits
    5000 ms, not 3000 ms. *)
Lemma constructor_failure_waits_5000 :
  timers (exec (connect false) (@init Z)) = [5000]
  ∧ timers (exec (connect false) (@init Z)) ≠ [3000].
Proof. by split. Qed.

Lemma retry_delays_are_fixed_witness :
  ∃ c', step JSON_parse (Closed 0 true) (exec (connect true) init) = Some c'
        ∧ timers c' = [3000].
Proof.
  eexists. split; [reflexivity|].
  apply (proj1 (proj2 (proj2 (proj2
           (retry_delays_are_fixed JSON_parse (exec (connect true) init)))))
         0 true).
  reflexivity.
Defined.

Lemma malformed_frame_logged_and_dropped_witness :
  JSON_parse "not json" = None
  ∧ calls (exec (onmessage JSON_parse "not json") init)
    = [ConsoleError "Failed to parse WebSocket message:"].
Proof.
  split; [by vm_compute|].
  apply (malformed_frame_logged_and_dropped JSON_parse "not json" init).
  by vm_compute.
Defined.

Lemma critical_alert_raises_one_error_toast_witness :
  JSON_parse critical_alert_frame = Some critical_alert
  ∧ toasts (exec (onmessage JSON_parse critical_alert_frame) init)
    = [(toast_error, VString "X")].
Proof.
  split; [by vm_compute|].
  apply (critical_alert_raises_one_error_toast JSON_parse
           critical_alert_frame init).
  by vm_compute.
Defined.

Lemma frames_handled_in_arrival_order_witness :
  let c := exec (onopen 0) (set_ready 0 OPEN (exec (connect true) init)) in
  ready c 0 = Some OPEN
  ∧ ∃ c', run JSON_parse (Message 0 <$> ["[7]"; "not json"; "null"]) c
          = Some c'
          ∧ handled c' = [VArray [VNumber 7%Z]; VNull].
Proof.
  split; [reflexivity|].
  destruct (frames_handled_in_arrival_order JSON_parse 0
              ["[7]"; "not json"; "null"]
              (exec (onopen 0)
                 (set_ready 0 OPEN (exec (connect true) init))))
    as (c' & Hr & Hh & _); [reflexivity|].
  exists c'. split; [exact Hr | exact Hh].
Defined.


Lemma sendMessage_only_when_open_witness :
  let c := exec (connect true) (@init Z) in
  let c' := exec (onopen 0) (set_ready 0 OPEN c) in
  ((socket c = None ∨ ∃ ws, socket c = Some ws ∧ ready c ws ≠ Some OPEN)
   ∧ sendMessage stringify VNull c = (inr (), c))
  ∧ (socket c' = Some 0 ∧ ready c' 0 = Some OPEN
     ∧ sent <$> transports (exec (sendMessage stringify VNull) c')
       = [["null"]]).
Proof.
  split.
  - split; [by left|].
    apply (sendMessage_only_when_open stringify VNull
             (exec (connect true) init)).
    by left.
  - split; [reflexivity|]. split; [reflexivity|].
    exact (f_equal (λ r, sent <$> transports r.2)
             (proj2 (sendMessage_only_when_open stringify VNull
                       (exec (onopen 0)
                          (set_ready 0 OPEN (exec (connect true) init))))
                0 (Transport OPEN []) eq_refl eq_refl eq_refl)).
Defined.
End Live.

(** ** Metrics poller *)
Section Poller.
Import BrainSaitApp.

Lemma failed_fetch_keeps_metrics_witness :
  let a := App true (VObject {["requests" := VNumber 10%Z]}) 1
               [(5000, UpdateMetrics)] [] in
  fetch_failed (@Rejected Z) = true
  ∧ metrics (exec (updateMetrics_resume true true Rejected) a)
    = VObject {["requests" := VNumber 10%Z]}.
Proof.
  split; [reflexivity|].
  apply (failed_fetch_keeps_metrics true true Rejected
           (App true (VObject {["requests" := VNumber 10%Z]}) 1
                [(5000, UpdateMetrics)] [])).
  reflexivity.
Defined.

(** C4 (as stated) fails.  Two ticks of the 5-second interval before the
    first fetch settles leave two fetches in flight. *)
Lemma two_ticks_two_fetches_in_flight :
  let a := tick 0 (tick 0 (exec startRealTimeUpdates (@init Z))) in
  in_flight a = 2 ∧ ¬ (in_flight a ≤ 1)%nat.
Proof. split; [done | simpl; lia]. Qed.

Lemma every_tick_starts_a_fetch_witness :
  let a := exec startRealTimeUpdates (@init Z) in
  intervals a !! 0 = Some (5000, UpdateMetrics)
  ∧ in_flight (tick 0 a) = 1.
Proof.
  split; [reflexivity|].
  apply (every_tick_starts_a_fetch
           (exec startRealTimeUpdates (@init Z)) 0 5000).
  reflexivity.
Defined.
End Poller.

End Instances.

(** * Further properties of the Live Channel Client *)

Section LiveChannelLife.
Import JS LiveChannel.
Context {number : Type} `{!JSNumber number}.
Variable JSON_parse : string → option (value number).
Variable JSON_stringify : value number → option string.
Implicit Types (c : @client number) (m message msg v : value number).

(** *** The four phases *)

Lemma sendMessage_cases message c :
  (socket c = None ∨ (∃ ws, socket c = Some ws ∧ ready c ws ≠ Some OPEN) →
   sendMessage JSON_stringify message c = (inr (), c))
  ∧ (∀ ws t,
       socket c = Some ws → transports c !! ws = Some t →
       readyState t = OPEN →
       sendMessage JSON_stringify message c
       = (inr (),
          set_transports
            (<[ws := Transport OPEN
                       (sent t ++ [default "undefined"
                                     (JSON_stringify message)])]>
               (transports c)) c)).
Proof.
  unfold sendMessage, mbind, M_bind, bind, gets, ready. split.
  - intros [E | (ws & E & Hr)]; rewrite E; simpl; [done|].
    destruct (transports c !! ws) as [[[] ?]|]; simpl in *; done.
  - intros ws t E Ht Ho. rewrite E. simpl. rewrite Ht. simpl. rewrite Ho.
    unfold ws_send, modify. do 2 f_equal.
    apply list_eq. intros i. destruct (decide (ws = i)) as [<-|Hne].
    + rewrite list_lookup_alter_eq, Ht, list_lookup_insert_eq.
      * simpl. by rewrite Ho.
      * by apply lookup_lt_Some with t.
    + by rewrite list_lookup_alter_ne, list_lookup_insert_ne.
Qed.

Lemma phase_fields c c' :
  transports c' = transports c → timers c' = timers c →
  socket c' = socket c → isConnected c' = isConnected c →
  phase c → phase c'.
Proof.
  intros Ht Hm Hs Hi
    [d ? ? ? ?|ts t ? ? ? ? ? ?|ts t ? ? ? ? ? ?|ts t ? ? ? ? ? ?].
  - apply (Waiting c' d); congruence.
  - apply (Connecting c' ts t); congruence.
  - apply (Connected c' ts t); congruence.
  - apply (Leaving c' ts t); congruence.
Qed.

Lemma phase_mounted ctor_ok : phase (exec (connect ctor_ok) (@init number)).
Proof.
  destruct ctor_ok.
  - by apply (Connecting _ [] (Transport CONNECTING [])).
  - by apply (Waiting _ 5000).
Qed.

(** In a list of closed sockets followed by [t], a socket that is not closed
    is [t]. *)
Lemma newest_is_the_live_one (ts : list transport) t ws r :
  Forall (λ t, readyState t = CLOSED) ts →
  readyState <$> (ts ++ [t])%list !! ws = Some r → r ≠ CLOSED →
  ws = length ts ∧ r = readyState t.
Proof.
  intros Hc Hr Hne.
  destruct (decide (ws < length ts)) as [Hlt|Hge].
  - rewrite lookup_app_l in Hr by done.
    destruct (ts !! ws) as [t'|] eqn:Ht; [|done].
    rewrite Forall_lookup in Hc. specialize (Hc ws t' Ht).
    simpl in Hr. congruence.
  - rewrite lookup_app_r in Hr by lia.
    destruct (ws - length ts) as [|k] eqn:Hk; simpl in Hr; [|done].
    split; [lia | congruence].
Qed.

Lemma all_closed_no_live (ts : list transport) ws r :
  Forall (λ t, readyState t = CLOSED) ts →
  readyState <$> ts !! ws = Some r → r = CLOSED.
Proof.
  intros Hc Hr. destruct (ts !! ws) as [t'|] eqn:Ht; [|done].
  rewrite Forall_lookup in Hc. specialize (Hc ws t' Ht).
  simpl in Hr. congruence.
Qed.

Lemma alter_newest (f : transport → transport) (ts : list transport) t :
  alter f (length ts) (ts ++ [t])%list = (ts ++ [f t])%list.
Proof.
  replace (length ts) with (length ts + 0) at 1 by lia.
  by rewrite alter_app_r.
Qed.

(** A socket that is not closed is the newest one, and no timer is
    pending beside it. *)
Lemma phase_live_socket c ws r :
  phase c → ready c ws = Some r → r ≠ CLOSED →
  ∃ ts t, transports c = (ts ++ [t])%list
          ∧ Forall (λ t, readyState t = CLOSED) ts
          ∧ ws = length ts ∧ r = readyState t ∧ timers c = [].
Proof.
  unfold ready. intros Hp Hr Hne.
  destruct Hp as [d Hc ? ? ?|ts t Ht Hc Ho Hm ? ?|ts t Ht Hc Ho Hm ? ?
                 |ts t Ht Hc Ho Hm ? ?].
  - apply (all_closed_no_live _ _ _ Hc) in Hr. congruence.
  - rewrite Ht in Hr.
    destruct (newest_is_the_live_one ts t ws _ Hc Hr Hne) as [-> ->].
    by exists ts, t.
  - rewrite Ht in Hr.
    destruct (newest_is_the_live_one ts t ws _ Hc Hr Hne) as [-> ->].
    by exists ts, t.
  - rewrite Ht in Hr.
    destruct (newest_is_the_live_one ts t ws _ Hc Hr Hne) as [-> ->].
    by exists ts, t.
Qed.

Lemma phase_step e c c' :
  step JSON_parse e c = Some c' → phase c → phase c'.
Proof.
  destruct e as [ws|ws raw|ws|ws failed|i ctor_ok]; unfold step.
  - (* the handshake completes *)
    destruct (ready c ws) as [[]|] eqn:Hr; try done. intros [= <-] Hp.
    destruct (phase_live_socket c ws _ Hp Hr)
      as (ts & t & Ht & Hc & -> & Ho & Hm); [done|].
    apply (Connected _ ts (Transport OPEN (sent t))); simpl; try done.
    by rewrite Ht, alter_newest.
  - (* a frame *)
    destruct (ready c ws) as [[]|]; try done. intros [= <-].
    destruct (onmessage_effect JSON_parse raw c) as (_ & ? & ? & ? & ? & _).
    by apply phase_fields.
  - (* the server starts the closing handshake *)
    destruct (ready c ws) as [[]|] eqn:Hr; try done. intros [= <-] Hp.
    destruct (phase_live_socket c ws _ Hp Hr)
      as (ts & t & Ht & Hc & -> & Ho & Hm); [done|].
    destruct Hp as [d Hc' ? ? ?|ts' t' Ht' ? Ho' ? ? ?|ts' t' Ht' ? Ho' ? Hs Hi
                   |ts' t' Ht' ? Ho' ? ? ?];
      try (rewrite Ht in Ht'; apply app_inj_tail in Ht' as [<- <-];
           congruence).
    + unfold ready in Hr. apply (all_closed_no_live _ _ _ Hc') in Hr.
      congruence.
    + rewrite Ht in Ht'. apply app_inj_tail in Ht' as [<- <-].
      apply (Leaving _ ts (Transport CLOSING (sent t))); simpl; try done.
      by rewrite Ht, alter_newest.
  - (* the connection is gone *)
    destruct (ready c ws) as [r|] eqn:Hr; [|done].
    assert (r ≠ CLOSED →
            phase c →
            phase (exec onclose
                     (if failed then exec onerror (set_ready ws CLOSED c)
                      else set_ready ws CLOSED c))) as Hgo.
    { intros Hne Hp.
      destruct (phase_live_socket c ws _ Hp Hr Hne)
        as (ts & t & Ht & Hc & -> & _ & Hm).
      apply (Waiting _ 3000); destruct failed; simpl; rewrite ?Hm; try done;
        rewrite Ht, alter_newest; apply Forall_app; split; try done;
        by repeat constructor. }
    destruct r; try done; intros [= <-]; by apply Hgo.
  - (* a timer is due *)
    destruct (timers c !! i) as [d|] eqn:Hi; [|done]. intros [= <-].
    intros [d' Hc Hm ? ?|ts t Ht Hc Ho Hm ? ?|ts t Ht Hc Ho Hm ? ?
           |ts t Ht Hc Ho Hm ? ?];
      rewrite Hm in Hi; try done.
    destruct i as [|i]; [|done].
    destruct ctor_ok.
    + apply (Connecting _ (transports c) (Transport CONNECTING []));
        simpl; try done. by rewrite Hm.
    + apply (Waiting _ 5000); simpl; try done. by rewrite Hm.
Qed.

Lemma sendMessage_phase message c :
  phase c → phase (exec (sendMessage JSON_stringify message) c).
Proof.
  intros Hp.
  destruct (sendMessage_cases message c) as [Hno Hyes].
  destruct Hp as [d Hc Hm Hs Hi|ts t Ht Hc Ho Hm Hs Hi|ts t Ht Hc Ho Hm Hs Hi
                 |ts t Ht Hc Ho Hm Hs Hi].
  - unfold exec. rewrite Hno by auto. by apply (Waiting _ d).
  - unfold exec. rewrite Hno by auto. by apply (Connecting _ ts t).
  - unfold exec.
    rewrite (Hyes (length ts) t Hs);
      [|by rewrite Ht, lookup_app_r, Nat.sub_diag by lia|done].
    simpl.
    apply (Connected _ ts
             (Transport OPEN
                (sent t ++ [default "undefined" (JSON_stringify message)])));
      simpl; try done.
    rewrite Ht. replace (length ts) with (length ts + 0) at 1 by lia.
    by rewrite insert_app_r.
  - unfold exec. rewrite Hno; [by apply (Leaving _ ts t)|].
    right. exists (length ts). split; [done|]. unfold ready.
    rewrite Ht, lookup_app_r, Nat.sub_diag by lia. simpl. congruence.
Qed.

Lemma phase_play acts :
  ∀ c c', play JSON_parse JSON_stringify acts c = Some c' →
          phase c → phase c'.
Proof.
  induction acts as [|a acts IH]; intros c c' Hp Hc; [by injection Hp as <-|].
  simpl in Hp.
  destruct (perform JSON_parse JSON_stringify a c) as [c1|] eqn:Ha; [|done].
  apply (IH c1 c' Hp). destruct a as [e|message]; simpl in Ha.
  - by apply (phase_step e c).
  - injection Ha as <-. by apply sendMessage_phase.
Qed.

Lemma closed_not_live (ts : list transport) :
  Forall (λ t, readyState t = CLOSED) ts →
  filter (λ t, is_live t = true) ts = [].
Proof.
  induction 1 as [|t ts Ht _ IH]; [done|].
  rewrite filter_cons_False; [done|]. unfold is_live. by rewrite Ht.
Qed.

Lemma phase_live c : phase c → live c + length (timers c) = 1.
Proof.
  unfold live.
  intros [d Hc Hm _ _|ts t Ht Hc Ho Hm _ _|ts t Ht Hc Ho Hm _ _
         |ts t Ht Hc Ho Hm _ _]; rewrite Hm.
  - by rewrite closed_not_live.
  - rewrite Ht, filter_app, closed_not_live by done.
    rewrite filter_cons_True; [done|]. unfold is_live. by rewrite Ho.
  - rewrite Ht, filter_app, closed_not_live by done.
    rewrite filter_cons_True; [done|]. unfold is_live. by rewrite Ho.
  - rewrite Ht, filter_app, closed_not_live by done.
    rewrite filter_cons_True; [done|]. unfold is_live. by rewrite Ho.
Qed.

(** The socket in the cell is the one that is open or closing. *)
Lemma phase_cell c ws :
  phase c →
  (socket c = Some ws
   ↔ ready c ws = Some OPEN ∨ ready c ws = Some CLOSING).
Proof.
  intros Hp. split.
  - intros Hs. unfold ready.
    destruct Hp as [d Hc Hm Hs' Hi|ts t Ht Hc Ho Hm Hs' Hi
                   |ts t Ht Hc Ho Hm Hs' Hi|ts t Ht Hc Ho Hm Hs' Hi];
      rewrite Hs' in Hs; try done; injection Hs as <-;
      rewrite Ht, lookup_app_r, Nat.sub_diag by lia; simpl; rewrite Ho;
      auto.
  - intros Hr.
    assert (∃ r, ready c ws = Some r ∧ (r = OPEN ∨ r = CLOSING))
      as (r & Hr' & Hor) by (destruct Hr; eauto).
    destruct (phase_live_socket c ws r Hp Hr')
      as (ts & t & Ht & Hc & -> & -> & Hm); [by destruct Hor as [->| ->]|].
    destruct Hp as [d Hc' ? ? ?|ts' t' Ht' ? Ho' ? Hs' ?
                   |ts' t' Ht' ? Ho' ? Hs' ?|ts' t' Ht' ? Ho' ? Hs' ?].
    + unfold ready in Hr'. apply (all_closed_no_live _ _ _ Hc') in Hr'.
      destruct Hor; congruence.
    + rewrite Ht in Ht'. apply app_inj_tail in Ht' as [<- <-].
      destruct Hor; congruence.
    + rewrite Ht in Ht'. by apply app_inj_tail in Ht' as [<- <-].
    + rewrite Ht in Ht'. by apply app_inj_tail in Ht' as [<- <-].
Qed.

(** X1.  From the mount on, whatever the browser delivers and whenever
    components send, the client is in one of four phases (waiting for one
    retry timer, connecting, connected, closing); so the sockets that are
    not closed and the pending timers always number one together: never
    two attempts at once, never none. *)
Theorem one_attempt_at_a_time ctor_ok acts c :
  play JSON_parse JSON_stringify acts (exec (connect ctor_ok) init) = Some c →
  phase c ∧ live c + length (timers c) = 1.
Proof.
  intros Hp.
  assert (phase c) as Hc
    by (eapply phase_play; [exact Hp | apply phase_mounted]).
  split; [done | by apply phase_live].
Qed.

(** X2.  From the mount on, the [isConnected] flag is true exactly when
    some socket is [OPEN] or [CLOSING], and the [socket] cell holds exactly
    that socket: the flag is never false while a socket is open, and it
    stays true through a closing handshake until the close event. *)
Theorem connected_flag_follows_the_socket ctor_ok acts c :
  play JSON_parse JSON_stringify acts (exec (connect ctor_ok) init) = Some c →
  (isConnected c = true
   ↔ ∃ ws, ready c ws = Some OPEN ∨ ready c ws = Some CLOSING)
  ∧ ∀ ws, socket c = Some ws
          ↔ ready c ws = Some OPEN ∨ ready c ws = Some CLOSING.
Proof.
  intros Hp.
  assert (phase c) as Hc
    by (eapply phase_play; [exact Hp | apply phase_mounted]).
  split; [|intros ws; by apply phase_cell].
  split.
  - intros Hi.
    assert (∃ ws, socket c = Some ws) as [ws Hs]
      by (destruct Hc; try congruence; eauto).
    exists ws. by apply phase_cell.
  - intros [ws Hr]. apply phase_cell in Hr; [|done].
    destruct Hc; congruence.
Qed.

(** X3.  From the mount on, [sendMessage] with [isConnected] false changes
    nothing.  With [isConnected] true the [socket] cell holds a socket
    that is open or closing: if open, the serialized message is appended
    to what was sent on it; if closing, the message is dropped and nothing
    changes. *)
Theorem send_follows_the_flag_but_for_closing ctor_ok acts c message :
  play JSON_parse JSON_stringify acts (exec (connect ctor_ok) init) = Some c →
  (isConnected c = false →
   sendMessage JSON_stringify message c = (inr (), c))
  ∧ (isConnected c = true →
     ∃ ws t, socket c = Some ws ∧ transports c !! ws = Some t
             ∧ ((readyState t = OPEN
                 ∧ sendMessage JSON_stringify message c
                   = (inr (),
                      set_transports
                        (<[ws := Transport OPEN
                                   (sent t ++ [default "undefined"
                                                 (JSON_stringify message)])]>
                           (transports c)) c))
                ∨ (readyState t = CLOSING
                   ∧ sendMessage JSON_stringify message c = (inr (), c)))).
Proof.
  intros Hp.
  assert (phase c) as Hc
    by (eapply phase_play; [exact Hp | apply phase_mounted]).
  destruct (sendMessage_cases message c) as [Hno Hyes].
  destruct Hc as [d ? ? Hs Hf|ts t ? ? ? ? Hs Hf|ts t Ht ? Ho ? Hs Hf
                 |ts t Ht ? Ho ? Hs Hf].
  - split; [intros _; apply Hno; by left | congruence].
  - split; [intros _; apply Hno; by left | congruence].
  - split; [congruence|]. intros _. exists (length ts), t.
    assert (transports c !! length ts = Some t) as Hl
      by (by rewrite Ht, lookup_app_r, Nat.sub_diag by lia).
    split; [done|]. split; [done|]. left. split; [done|]. by apply Hyes.
  - split; [congruence|]. intros _. exists (length ts), t.
    assert (transports c !! length ts = Some t) as Hl
      by (by rewrite Ht, lookup_app_r, Nat.sub_diag by lia).
    split; [done|]. split; [done|]. right. split; [done|].
    apply Hno. right. exists (length ts). split; [done|].
    unfold ready. rewrite Hl. simpl. congruence.
Qed.

(** *** What the handlers never do *)

Lemma sent_alter (f : transport → transport) ws (ts : list transport) :
  (∀ t, sent (f t) = sent t) → sent <$> alter f ws ts = sent <$> ts.
Proof.
  intros Hf. rewrite (list_fmap_alter sent f id).
  - apply list_eq. intros i. rewrite list_lookup_alter.
    case_decide; [subst|done]. by destruct (_ !! i).
  - apply Forall_forall. intros t _. apply Hf.
Qed.

Lemma step_sent e c c' :
  step JSON_parse e c = Some c' →
  ∃ n, sent <$> transports c' = ((sent <$> transports c) ++ replicate n [])%list.
Proof.
  destruct e as [ws|ws raw|ws|ws failed|i ctor_ok]; unfold step.
  - destruct (ready c ws) as [[]|]; try done. intros [= <-]. exists 0.
    simpl. by rewrite sent_alter, app_nil_r.
  - destruct (ready c ws) as [[]|]; try done. intros [= <-]. exists 0.
    destruct (onmessage_effect JSON_parse raw c) as (_ & _ & _ & -> & _).
    by rewrite app_nil_r.
  - destruct (ready c ws) as [[]|]; try done. intros [= <-]. exists 0.
    simpl. by rewrite sent_alter, app_nil_r.
  - assert (sent <$> transports
              (exec onclose
                 (if failed then exec onerror (set_ready ws CLOSED c)
                  else set_ready ws CLOSED c))
            = sent <$> transports c) as Hk
      by (destruct failed; simpl; by rewrite sent_alter).
    destruct (ready c ws) as [[]|]; try done; intros [= <-]; exists 0;
      by rewrite Hk, app_nil_r.
  - destruct (timers c !! i); [|done]. intros [= <-].
    destruct ctor_ok; [exists 1 | exists 0]; simpl.
    + by rewrite fmap_app.
    + by rewrite app_nil_r.
Qed.

(** X4.  No handler ever transmits: after any run of browser events every
    socket has sent what it had sent before, and every socket opened
    during the run has sent nothing.  What was subscribed on a lost socket
    is not sent again on its successor. *)
Theorem browser_events_never_transmit es c c' :
  run JSON_parse es c = Some c' →
  ∃ n, sent <$> transports c'
       = ((sent <$> transports c) ++ replicate n [])%list.
Proof.
  revert c. induction es as [|e es IH]; intros c Hr.
  - injection Hr as <-. exists 0. by rewrite app_nil_r.
  - simpl in Hr. destruct (step JSON_parse e c) as [c1|] eqn:He; [|done].
    destruct (step_sent e c c1 He) as (n1 & E1).
    destruct (IH c1 Hr) as (n2 & E2).
    exists (n1 + n2). by rewrite E2, E1, <- app_assoc, replicate_add.
Qed.

Lemma run_app es1 es2 c :
  run JSON_parse (es1 ++ es2) c
  = run JSON_parse es1 c ≫= run JSON_parse es2.
Proof.
  revert c. induction es1 as [|e es1 IH]; intros c; [done|].
  simpl. destruct (step JSON_parse e c); [apply IH | done].
Qed.

(** X5.  The cleanup that the effect returns at mount holds the [socket]
    of the first render, which is [null]: unmounting closes no socket and
    changes nothing, so a session with an unmount in it is the same run of
    events without it. *)
Theorem unmount_closes_nothing ctor_ok before after :
  session JSON_parse ctor_ok before after
  = run JSON_parse (before ++ after) (exec (connect ctor_ok) init).
Proof.
  unfold session. simpl. rewrite run_app.
  by destruct (run JSON_parse before _).
Qed.

Lemma toasts_log_other (k : @call number) c :
  toasts (log k c)
  = (toasts c ++ match k with
                 | Toast t m => [(t, m)]
                 | _ => []
                 end)%list.
Proof. unfold toasts; simpl. rewrite omap_app. by destruct k. Qed.

Lemma drops_toasts n :
  ∀ c (ts : list transport),
    transports c = (ts ++ [Transport CONNECTING []])%list → timers c = [] →
    ∃ c', run JSON_parse (drops n (length ts)) c = Some c'
          ∧ toasts c'
            = (toasts c
               ++ concat (replicate n
                    [(toast_error, VString "Connection error");
                     (toast_error,
                      VString "Disconnected from real-time updates")]))%list.
Proof.
  induction n as [|n IH]; intros c ts Hts Ht.
  - exists c. by rewrite app_nil_r.
  - assert (ready c (length ts) = Some CONNECTING) as Hr.
    { unfold ready. rewrite Hts, lookup_app_r, Nat.sub_diag; [done|lia]. }
    set (c1 := exec onclose (exec onerror (set_ready (length ts) CLOSED c))).
    assert (step JSON_parse (Closed (length ts) true) c = Some c1) as H1
      by (unfold step; by rewrite Hr).
    set (c2 := exec (connect true)
                 (Client (isConnected c1) (socket c1) (data c1)
                    (transports c1) (delete 0 (timers c1)) (calls c1))).
    assert (step JSON_parse (TimerDue 0 true) c1 = Some c2) as H2
      by (subst c2 c1; unfold step; simpl; by rewrite Ht).
    destruct (IH c2 (alter (λ t, Transport CLOSED (sent t)) (length ts)
                           (transports c))) as (c' & Hrun & Htoasts).
    { done. }
    { simpl. by rewrite Ht. }
    rewrite length_alter, Hts, length_app in Hrun. simpl in Hrun.
    replace (length ts + 1) with (S (length ts)) in Hrun by lia.
    exists c'. cbn [drops].
    rewrite (run_cons _ _ _ _ _ H1), (run_cons _ _ _ _ _ H2).
    split; [done|]. rewrite Htoasts. cbn [replicate concat].
    rewrite app_assoc. f_equal.
    unfold toasts. simpl. rewrite !omap_app. simpl.
    by rewrite !app_nil_r, <- !app_assoc.
Qed.

(** X20.  While the server cannot be reached every attempt costs the user
    two error toasts, one from the error handler and one from the close
    handler: after [n] failed attempts in a row there are [2n] of them,
    and the next attempt is already under way. *)
Theorem every_failed_attempt_raises_two_toasts n :
  ∃ c', run JSON_parse (drops n 0) (exec (connect true) init) = Some c'
        ∧ toasts c'
          = concat (replicate n
              [(toast_error, VString "Connection error");
               (toast_error, VString "Disconnected from real-time updates")]).
Proof.
  destruct (drops_toasts n (exec (connect true) init) [])
    as (c' & Hr & Ht); [done..|].
  by exists c'.
Qed.

End LiveChannelLife.

(** * Further properties of the message handler *)

Section LiveChannelFrames.
Import JS LiveChannel.
Context {number : Type} `{!JSNumber number}.
Variable JSON_parse : string → option (value number).
Variable JSON_stringify : value number → option string.
Implicit Types (c : @client number) (m message msg v : value number).

Ltac run_handler :=
  unfold handle_message_type, type_is, interpolate, toast, modify,
    mbind, M_bind, bind, lift, mret, M_ret, ret.

(** The dispatch makes no call, or one call and that a toast. *)
Lemma handle_message_type_shape m :
  ∃ r ks, (∀ c, handle_message_type m c = (r, appends ks c))
          ∧ (ks = [] ∨ ∃ k msg, ks = [Toast k msg]).
Proof.
  run_handler.
  repeat match goal with
         | |- context [match ?x with _ => _ end] =>
             lazymatch x with
             | context [appends] => fail
             | _ => destruct x
             end
         | |- context [if ?x then _ else _] => destruct x
         end;
    first
      [ eexists _, []; split;
        [intros c; rewrite appends_nil; reflexivity | by left]
      | eexists _, [_]; split;
        [intros c; reflexivity | right; by eexists _, _] ].
Qed.

Lemma toasts_appends (ks : list call) c :
  toasts (appends ks c)
  = (toasts c
     ++ omap (λ k, match k with Toast t m => Some (t, m) | _ => None end)
          ks)%list.
Proof. unfold toasts, appends; simpl. by rewrite omap_app. Qed.

(** X6.  Whatever text a frame carries, the handler returns normally,
    raises at most one notification and leaves the flag, the socket cell,
    the sockets and the timers alone. *)
Theorem frame_raises_at_most_one_toast raw c :
  let c' := exec (onmessage JSON_parse raw) c in
  returns (onmessage JSON_parse raw) c = true
  ∧ (toasts c' = toasts c ∨ ∃ k msg, toasts c' = (toasts c ++ [(k, msg)])%list)
  ∧ isConnected c' = isConnected c ∧ socket c' = socket c
  ∧ transports c' = transports c ∧ timers c' = timers c.
Proof.
  destruct (onmessage_effect JSON_parse raw c)
    as (Hr & Hi & Hs & Ht & Hm & _).
  repeat split; try done.
  unfold exec. rewrite onmessage_unfold.
  destruct (JSON_parse raw) as [m|]; [|left; simpl].
  - destruct (handle_message_type_shape m) as (r & ks & E & Hks).
    unfold try_catch. rewrite E.
    assert (toasts (exec (setData m) c) = toasts c) as Hd.
    { unfold toasts; simpl. by rewrite omap_app, app_nil_r. }
    assert (∀ c0 : @client number,
              toasts (log (ConsoleError "Failed to parse WebSocket message:")
                        c0) = toasts c0) as Hl.
    { intros c0. unfold toasts; simpl. by rewrite omap_app, app_nil_r. }
    destruct r as [e|[]]; simpl; rewrite ?Hl, toasts_appends, Hd;
      destruct Hks as [->|(k & msg & ->)]; simpl;
      rewrite ?app_nil_r; eauto.
  - unfold toasts; simpl. by rewrite omap_app, app_nil_r.
Qed.

(** What the handler does once the frame has parsed, given what the
    dispatch does. *)
Lemma onmessage_dispatch raw m c r c2 :
  JSON_parse raw = Some m →
  handle_message_type m (exec (setData m) c) = (r, c2) →
  exec (onmessage JSON_parse raw) c
  = match r with
    | inl _ => log (ConsoleError "Failed to parse WebSocket message:") c2
    | inr _ => c2
    end.
Proof.
  intros E Hh. unfold exec. rewrite onmessage_unfold, E.
  unfold try_catch. rewrite Hh. by destruct r.
Qed.

(** X7.  A frame of any other kind is merged and nothing more: when a
    parsed frame is neither [null] nor of type [agent_execution_complete],
    [agent_execution_error] or [new_alert] (an [alert_dismissed] frame, a
    frame without type, an array, a number), the only call is [setData]. *)
Theorem other_kinds_are_silent raw m t c :
  JSON_parse raw = Some m →
  get_prop m "type" = inr t →
  strict_eq_str t "agent_execution_complete" = false →
  strict_eq_str t "agent_execution_error" = false →
  strict_eq_str t "new_alert" = false →
  calls (exec (onmessage JSON_parse raw) c) = (calls c ++ [SetData m])%list.
Proof.
  intros E Ht H1 H2 H3.
  rewrite (onmessage_dispatch raw m c (inr ()) (exec (setData m) c) E);
    [done|].
  run_handler. by rewrite Ht, H1, H2, H3.
Qed.

(** X8.  The severity of an alert decides the toast: [critical] gives an
    error toast, [warning] a toast with the warning icon, any other or a
    missing type a success toast; the text is the alert's [title], also
    when that is missing. *)
Theorem alert_severity_decides_the_toast raw m alert ty title c :
  JSON_parse raw = Some m →
  get_prop m "type" = inr (VString "new_alert") →
  get_prop m "alert" = inr alert →
  get_prop alert "type" = inr ty →
  get_prop alert "title" = inr title →
  calls (exec (onmessage JSON_parse raw) c)
  = (calls c
     ++ [SetData m;
         Toast (if strict_eq_str ty "critical" then toast_error
                else if strict_eq_str ty "warning" then toast_icon "⚠️"
                else toast_success) title])%list.
Proof.
  intros E Ht Ha Hty Hti.
  rewrite (onmessage_dispatch raw m c (inr ())
             (log (Toast (if strict_eq_str ty "critical" then toast_error
                          else if strict_eq_str ty "warning"
                               then toast_icon "⚠️"
                               else toast_success) title)
                  (exec (setData m) c)) E).
  - simpl. by rewrite <- app_assoc.
  - run_handler. rewrite Ht, Ha, Hty, Hti. simpl.
    by destruct (strict_eq_str ty "critical"), (strict_eq_str ty "warning").
Qed.

(** X9.  A frame that parses but breaks the dispatch is merged all the
    same and then reported on the console as a parse failure, without a
    toast: the frame [null], and a [new_alert] frame whose [alert] is
    missing or [null]. *)
Theorem dispatch_errors_pass_for_parse_failures raw m c :
  JSON_parse raw = Some m →
  get_prop m "type" = inl TypeError
  ∨ (get_prop m "type" = inr (VString "new_alert")
     ∧ ∃ alert, get_prop m "alert" = inr alert
                ∧ get_prop alert "type" = inl TypeError) →
  calls (exec (onmessage JSON_parse raw) c)
  = (calls c ++ [SetData m;
                 ConsoleError "Failed to parse WebSocket message:"])%list.
Proof.
  intros E H.
  rewrite (onmessage_dispatch raw m c (inl TypeError)
             (exec (setData m) c) E).
  - simpl. by rewrite <- app_assoc.
  - run_handler. destruct H as [Ht|(Ht & alert & Ha & Hty)].
    + by rewrite Ht.
    + by rewrite Ht, Ha, Hty.
Qed.

(** X10.  An [agent_execution_error] frame raises one error toast whose
    text is built from the frame's [agent_id] and [error] as a template
    literal prints them; a missing one prints as [undefined]. *)
Theorem agent_error_toast_text raw m agent_id error id_text error_text c :
  JSON_parse raw = Some m →
  get_prop m "type" = inr (VString "agent_execution_error") →
  get_prop m "agent_id" = inr agent_id → to_string agent_id = inr id_text →
  get_prop m "error" = inr error → to_string error = inr error_text →
  calls (exec (onmessage JSON_parse raw) c)
  = (calls c
     ++ [SetData m;
         Toast toast_error
           (VString ("Agent " ++ id_text ++ " failed: " ++ error_text))])%list.
Proof.
  intros E Ht Ha Hsa He Hse.
  rewrite (onmessage_dispatch raw m c (inr ())
             (log (Toast toast_error
                     (VString ("Agent " ++ id_text ++ " failed: "
                               ++ error_text)))
                  (exec (setData m) c)) E).
  - simpl. by rewrite <- app_assoc.
  - run_handler. by rewrite Ht, Ha, Hsa, He, Hse.
Qed.

(** *** The shared data *)

Lemma spread_twice (d : gmap string (value number)) m :
  spread (spread d m) m = spread d m.
Proof.
  unfold spread. by rewrite (assoc_L (∪)), (idemp_L (∪)).
Qed.

(** X11.  Delivering the same frame twice leaves the data as delivering it
    once does. *)
Theorem same_frame_twice_same_data raw c :
  data (exec (onmessage JSON_parse raw) (exec (onmessage JSON_parse raw) c))
  = data (exec (onmessage JSON_parse raw) c).
Proof.
  destruct (onmessage_effect JSON_parse raw
              (exec (onmessage JSON_parse raw) c))
    as (_ & _ & _ & _ & _ & _ & -> & _).
  destruct (onmessage_effect JSON_parse raw c)
    as (_ & _ & _ & _ & _ & _ & -> & _).
  destruct (JSON_parse raw) as [m|]; simpl; [apply spread_twice | done].
Qed.



End LiveChannelFrames.

(** * Further properties of the metrics poller *)

Section BrainSaitAppMore.
Import JS BrainSaitApp.
Context {number : Type} `{!JSNumber number}.
Implicit Types (a : @app number) (r : fetch_result number).


Lemma updateMetrics_resume_frame dom_complete status_complete r a :
  let a' := exec (updateMetrics_resume dom_complete status_complete r) a in
  intervals a' = intervals a ∧ in_flight a' = in_flight a.
Proof.
  unfold exec, updateMetrics_resume, try_catch, mbind, M_bind, bind, lift.
  destruct status_complete, r as [|[] [data|]]; simpl; try done;
    destruct (get_prop data "metrics"); simpl; try done;
    by destruct dom_complete.
Qed.

Lemma poll_step_frame e a a' :
  poll_step e a = Some a' →
  intervals a' = intervals a
  ∧ in_flight a' + (if is_settle e then 1 else 0)
    = in_flight a + (if is_metrics_tick a e then 1 else 0).
Proof.
  destruct e as [i|dom_complete status_complete r]; simpl.
  - intros [= <-]. unfold tick.
    destruct (intervals a !! i) as [[d []]|]; simpl; split; try done; lia.
  - destruct (in_flight a) as [|n] eqn:Hn; [done|]. intros [= <-].
    unfold settle.
    destruct (updateMetrics_resume_frame dom_complete status_complete r
                (App (isConnected a) (metrics a) (pred (in_flight a))
                     (intervals a) (console a))) as [-> ->].
    simpl. rewrite Hn. simpl. split; [done | lia].
Qed.

Lemma is_metrics_tick_intervals a a' e :
  intervals a' = intervals a → is_metrics_tick a' e = is_metrics_tick a e.
Proof. intros E. destruct e; simpl; by rewrite ?E. Qed.

(** X14.  No tick and no fetch outcome ever changes the registered
    intervals, so polling goes on after every failure; and through any
    history the fetches in flight are the [updateMetrics] ticks minus the
    fetches settled. *)
Theorem polling_goes_on_and_counts es a a' :
  poll_run es a = Some a' →
  intervals a' = intervals a
  ∧ in_flight a' + count_events is_settle es
    = in_flight a + count_events (is_metrics_tick a) es.
Proof.
  revert a. induction es as [|e es IH]; intros a Hr.
  - injection Hr as <-. unfold count_events. simpl. split; [done | lia].
  - simpl in Hr. destruct (poll_step e a) as [a1|] eqn:He; [|done].
    destruct (poll_step_frame e a a1 He) as [Hi Hc].
    destruct (IH a1 Hr) as [Hi' Hc'].
    split; [congruence|].
    unfold count_events in *.
    assert (filter (λ e, is_metrics_tick a1 e = true) es
            = filter (λ e, is_metrics_tick a e = true) es) as Hf.
    { apply list_filter_iff. intros e'.
      by rewrite (is_metrics_tick_intervals a a1 e' Hi). }
    rewrite Hf in Hc'.
    rewrite !filter_cons.
    destruct (is_settle e), (is_metrics_tick a e);
      repeat case_decide; try done; simpl; lia.
Qed.

End BrainSaitAppMore.

Section RelativeTime.
Import BrainSaitApp.

(** X15.  For a date that is not in the future, [formatRelativeTime]
    picks the largest unit that is not zero: seconds below one minute,
    minutes below one hour, hours below one day, days from there on, each
    rounded down. *)
Theorem relative_time_picks_the_largest_unit now date :
  (date ≤ now)%Z → (now - date < 2 ^ 53)%Z →
  let d := (now - date)%Z in
  formatRelativeTime now date
  = if (d <? 60000)%Z then pretty (d / 1000)%Z ++ "s ago"
    else if (d <? 3600000)%Z then pretty (d / 60000)%Z ++ "m ago"
    else if (d <? 86400000)%Z then pretty (d / 3600000)%Z ++ "h ago"
    else pretty (d / 86400000)%Z ++ "d ago".
Proof.
  intros Hle _ d. unfold formatRelativeTime. fold d.
  assert (0 ≤ d)%Z as Hd by (unfold d; lia).
  rewrite !Z.div_div by lia. simpl Z.mul.
  repeat match goal with
         | |- context [(?x <? ?y)%Z] => destruct (Z.ltb_spec x y)
         end;
    try reflexivity; exfalso;
    Z.to_euclidean_division_equations; lia.
Qed.

(** X16.  For a date in the future the text is a negative count of
    seconds, however far ahead the date is. *)
Theorem relative_time_of_a_future_date now date :
  (now < date)%Z → (- 2 ^ 53 < now - date)%Z →
  formatRelativeTime now date = pretty ((now - date) / 1000)%Z ++ "s ago"
  ∧ ((now - date) / 1000 < 0)%Z.
Proof.
  intros Hlt _. unfold formatRelativeTime.
  repeat match goal with
         | |- context [(?x <? ?y)%Z] => destruct (Z.ltb_spec x y)
         end;
    (split; [try reflexivity; exfalso|]);
    Z.to_euclidean_division_equations; lia.
Qed.

End RelativeTime.

Section CounterFacts.
Import BrainSaitApp.
Context {number : Type} `{!Arith number}.

(** X17.  A counter asked to show the value it already shows never stops
    animating: the increment is zero, neither stop condition can hold, and
    every frame requests the next one.  The arithmetic assumed is that
    [t - t] is zero, zero divided by the frame count is zero, adding zero
    changes nothing and zero is neither above nor below zero. *)
Theorem unchanged_counter_animates_forever (t duration : number) n :
  sub t t = lit 0 →
  div (lit 0) (div duration (lit 16)) = lit 0 →
  add t (lit 0) = t →
  gt (lit 0) (lit 0) = false → lt (lit 0) (lit 0) = false →
  let s := Nat.iter n next_frame (animateCounter t t duration) in
  frame_pending s = true ∧ textContent s = floor t ∧ currentValue s = t.
Proof.
  intros Hsub Hdiv Hadd Hgt Hlt.
  assert (∀ s : animation,
            increment s = lit 0 → currentValue s = t →
            animate s = Animation t (lit 0) (targetValue s) (floor t) true)
    as Hanimate.
  { intros s Hi Hc. unfold animate. by rewrite Hi, Hc, Hadd, Hgt, Hlt. }
  assert (∀ n, Nat.iter n next_frame (animateCounter t t duration)
               = Animation t (lit 0) t (floor t) true) as Hiter.
  { clear n. induction n as [|n IH].
    - simpl. unfold animateCounter. rewrite Hanimate; simpl; [done| |done].
      by rewrite Hsub, Hdiv.
    - simpl. rewrite IH. unfold next_frame. simpl. by rewrite Hanimate. }
  simpl. by rewrite Hiter.
Qed.

End CounterFacts.

(** * Properties of the dashboard effect *)

Section DashboardFacts.
Import JS LiveChannel Dashboard.
Context {number : Type} `{!JSNumber number}.
Variable JSON_parse : string → option (value number).
Implicit Types (c : @client number) (m : value number).

(** X18.  When a frame carries a type of its own, the effect run on the
    merged data refetches by that type alone, whatever was merged before:
    agents and metrics for the two agent kinds, alerts for [new_alert] and
    for [alert_dismissed], nothing for any other type. *)
Theorem refetch_follows_the_frame_type raw m t c :
  JSON_parse raw = Some m →
  own_props m !! "type" = Some (VString t) →
  on_wsData (data (exec (onmessage JSON_parse raw) c))
  = ((if bool_decide (t = "agent_execution_complete"
                      ∨ t = "agent_execution_error")
      then [refetchAgents; refetchMetrics] else [])
     ++ (if bool_decide (t = "new_alert" ∨ t = "alert_dismissed")
         then [refetchAlerts] else []))%list.
Proof.
  intros E Ht.
  destruct (onmessage_effect JSON_parse raw c)
    as (_ & _ & _ & _ & _ & _ & -> & _).
  rewrite E. simpl. unfold on_wsData, spread.
  rewrite (lookup_union_Some_l _ _ _ _ Ht). simpl.
  repeat case_bool_decide; simpl; try done; exfalso; intuition congruence.
Qed.

(** X19.  A parsed frame that carries no type of its own leaves the type
    of an earlier frame in the data, so the effect run after it repeats
    the refetches of that earlier frame. *)
Theorem frame_without_type_repeats_the_refetch raw m c :
  JSON_parse raw = Some m →
  own_props m !! "type" = None →
  on_wsData (data (exec (onmessage JSON_parse raw) c))
  = on_wsData (data c).
Proof.
  intros E Ht.
  destruct (onmessage_effect JSON_parse raw c)
    as (_ & _ & _ & _ & _ & _ & -> & _).
  rewrite E. simpl. unfold on_wsData, spread.
  by rewrite lookup_union_r.
Qed.

End DashboardFacts.

(** * The further properties at concrete inputs *)

Section MoreInstances.
Import JS Reference Samples.

Section Live.
Import LiveChannel.

Lemma one_attempt_at_a_time_witness :
  play JSON_parse stringify [Browser (Open 0); Browser (Closing 0)]
       (exec (connect true) init)
  = Some closing
  ∧ live closing + length (timers closing) = 1.
Proof.
  split; [reflexivity|].
  exact (proj2 (one_attempt_at_a_time JSON_parse stringify true
                  [Browser (Open 0); Browser (Closing 0)] _ eq_refl)).
Defined.

Lemma connected_flag_follows_the_socket_witness :
  play JSON_parse stringify [Browser (Open 0); Browser (Closing 0)]
       (exec (connect true) init)
  = Some closing
  ∧ (socket closing = Some 0
     ↔ ready closing 0 = Some OPEN ∨ ready closing 0 = Some CLOSING).
Proof.
  split; [reflexivity|].
  exact (proj2 (connected_flag_follows_the_socket JSON_parse stringify true
                  [Browser (Open 0); Browser (Closing 0)] _ eq_refl) 0).
Defined.

Lemma send_follows_the_flag_but_for_closing_witness :
  (play JSON_parse stringify [Browser (Closed 0 true)]
        (exec (connect true) init) = Some lost
   ∧ sendMessage stringify VNull lost = (inr (), lost))
  ∧ (play JSON_parse stringify [Browser (Open 0)]
          (exec (connect true) init) = Some opened
     ∧ sent <$> transports (exec (sendMessage stringify VNull) opened)
       = [["null"]])
  ∧ (play JSON_parse stringify [Browser (Open 0); Browser (Closing 0)]
          (exec (connect true) init) = Some closing
     ∧ sendMessage stringify VNull closing = (inr (), closing)).
Proof.
  split; [|split].
  - split; [reflexivity|].
    exact (proj1 (send_follows_the_flag_but_for_closing JSON_parse stringify
                    true [Browser (Closed 0 true)] _ VNull eq_refl)
             eq_refl).
  - split; [reflexivity|].
    destruct (proj2 (send_follows_the_flag_but_for_closing JSON_parse
                       stringify true [Browser (Open 0)] opened VNull
                       eq_refl) eq_refl)
      as (ws & t & Hs & Ht & [[Ho E]|[Hc E]]).
    + injection Hs as <-. injection Ht as <-.
      unfold exec. rewrite E. reflexivity.
    + injection Hs as <-. injection Ht as <-. discriminate Hc.
  - split; [reflexivity|].
    destruct (proj2 (send_follows_the_flag_but_for_closing JSON_parse
                       stringify true
                       [Browser (Open 0); Browser (Closing 0)] closing VNull
                       eq_refl) eq_refl)
      as (ws & t & Hs & Ht & [[Ho E]|[Hc E]]).
    + injection Hs as <-. injection Ht as <-. discriminate Ho.
    + exact E.
Defined.

Lemma browser_events_never_transmit_witness :
  run JSON_parse [Closed 0 true; TimerDue 0 true]
      (exec (sendMessage stringify VNull) opened)
  = Some (exec (connect true)
            (Client false None ∅ [Transport CLOSED ["null"]] []
               (calls (exec onclose (exec onerror
                  (set_ready 0 CLOSED
                     (exec (sendMessage stringify VNull) opened)))))))
  ∧ ∃ n, sent <$> [Transport CLOSED ["null"]; Transport CONNECTING []]
         = ([["null"]] ++ replicate n [])%list.
Proof.
  split; [reflexivity|].
  exact (browser_events_never_transmit JSON_parse
           [Closed 0 true; TimerDue 0 true]
           (exec (sendMessage stringify VNull) opened) _ eq_refl).
Defined.

Lemma other_kinds_are_silent_witness :
  JSON_parse dismissed_frame
  = Some (VObject {["type" := VString "alert_dismissed"]})
  ∧ calls (exec (onmessage JSON_parse dismissed_frame) init)
    = [SetData (VObject {["type" := VString "alert_dismissed"]})].
Proof.
  split; [by vm_compute|].
  apply (other_kinds_are_silent JSON_parse dismissed_frame _
           (VString "alert_dismissed") init); by vm_compute.
Defined.

Lemma alert_severity_decides_the_toast_witness :
  calls (exec (onmessage JSON_parse untitled_warning_frame) init)
  = [SetData (VObject (<["type" := VString "new_alert"]>
                (<["alert" := VObject {["type" := VString "warning"]}]> ∅)));
     Toast (toast_icon "⚠️") VUndefined].
Proof.
  apply (alert_severity_decides_the_toast JSON_parse untitled_warning_frame
           (VObject (<["type" := VString "new_alert"]>
              (<["alert" := VObject {["type" := VString "warning"]}]> ∅)))
           (VObject {["type" := VString "warning"]})
           (VString "warning") VUndefined init);
    by vm_compute.
Defined.

Lemma dispatch_errors_pass_for_parse_failures_witness :
  calls (exec (onmessage JSON_parse "null") init)
  = [SetData VNull; ConsoleError "Failed to parse WebSocket message:"]
  ∧ calls (exec (onmessage JSON_parse alert_without_alert_frame) init)
    = [SetData (VObject {["type" := VString "new_alert"]});
       ConsoleError "Failed to parse WebSocket message:"].
Proof.
  split.
  - apply (dispatch_errors_pass_for_parse_failures JSON_parse "null" VNull
             init); [by vm_compute | by left].
  - apply (dispatch_errors_pass_for_parse_failures JSON_parse
             alert_without_alert_frame
             (VObject {["type" := VString "new_alert"]}) init);
      [by vm_compute|].
    right. split; [reflexivity|]. by exists VUndefined.
Defined.

Lemma agent_error_toast_text_witness :
  calls (exec (onmessage JSON_parse agent_error_frame) init)
  = [SetData (VObject (<["type" := VString "agent_execution_error"]>
                (<["agent_id" := VArray [VNumber 7%Z; VNull]]> ∅)));
     Toast toast_error (VString "Agent 7, failed: undefined")].
Proof.
  apply (agent_error_toast_text JSON_parse agent_error_frame
           (VObject (<["type" := VString "agent_execution_error"]>
              (<["agent_id" := VArray [VNumber 7%Z; VNull]]> ∅)))
           (VArray [VNumber 7%Z; VNull]) VUndefined "7," "undefined" init);
    by vm_compute.
Defined.

End Live.

Section Poller.
Import BrainSaitApp.


Lemma polling_goes_on_and_counts_witness :
  let a := exec startRealTimeUpdates (@init Z) in
  let es := [Tick 0; Tick 1; Tick 0; Settle true false Rejected; Tick 0] in
  ∃ a', poll_run es a = Some a'
        ∧ intervals a' = intervals a ∧ in_flight a' + 1 = 0 + 3.
Proof.
  eexists. split; [reflexivity|].
  exact (polling_goes_on_and_counts
           [Tick 0; Tick 1; Tick 0; Settle true false Rejected; Tick 0]
           (exec startRealTimeUpdates (@init Z)) _ eq_refl).
Defined.

Lemma relative_time_picks_the_largest_unit_witness :
  formatRelativeTime 7265000 0 = "2h ago".
Proof.
  exact (relative_time_picks_the_largest_unit 7265000 0
           ltac:(lia) ltac:(lia)).
Defined.

Lemma relative_time_of_a_future_date_witness :
  formatRelativeTime 0 7265000 = "-7265s ago".
Proof.
  exact (proj1 (relative_time_of_a_future_date 0 7265000
                  ltac:(lia) ltac:(lia))).
Defined.

Lemma unchanged_counter_animates_forever_witness :
  frame_pending (Nat.iter 3 next_frame (animateCounter 12%Z 12%Z 2000%Z))
  = true.
Proof.
  exact (proj1 (unchanged_counter_animates_forever 12%Z 2000%Z 3
                  eq_refl eq_refl eq_refl eq_refl eq_refl)).
Defined.
End Poller.

Section Page.
Import LiveChannel Dashboard.

Lemma refetch_follows_the_frame_type_witness :
  on_wsData (data (exec (onmessage JSON_parse dismissed_frame)
                     (exec (onmessage JSON_parse critical_alert_frame)
                        init)))
  = [refetchAlerts].
Proof.
  apply (refetch_follows_the_frame_type JSON_parse dismissed_frame
           (VObject {["type" := VString "alert_dismissed"]})
           "alert_dismissed"
           (exec (onmessage JSON_parse critical_alert_frame) init));
    by vm_compute.
Defined.

Lemma frame_without_type_repeats_the_refetch_witness :
  on_wsData (data (exec (onmessage JSON_parse "[7]")
                     (exec (onmessage JSON_parse critical_alert_frame)
                        init)))
  = [refetchAlerts].
Proof.
  rewrite (frame_without_type_repeats_the_refetch JSON_parse "[7]"
             (VArray [VNumber 7%Z])
             (exec (onmessage JSON_parse critical_alert_frame) init));
    by vm_compute.
Defined.
End Page.

End MoreInstances.
